(** * iterqueue: a closeable, cancelable, iterable FIFO queue

    A shallow embedding of [iterqueue/iterqueue.py].

    [Iterqueue] subclasses [queue.Queue] of the Python standard library
    and adds a status ([Unstarted], [Started], [Stopped], [Canceled]),
    a count of open writers driven by the context manager protocol, a
    cancel flag, a polling [get], and two iteration protocols.

    Conventions of the embedding:
    - the instance is a record [Iterqueue]; a method is a function on a
      [World], which pairs the instance with the wall clock and with
      what the calls have emitted so far;
    - a call ends in an [outcome]: it returns, it raises (the world at
      the raise is kept: Python does not roll back), or it has not come
      back yet ([Hang]: the loop is still polling when the fuel ran
      out, or the caller is parked on a condition of the storage);
    - time is counted in milliseconds, as an integer; [time.sleep]
      advances the clock and is the point where the other threads run
      (the parameter [others]); interleavings inside one pass of a loop
      are not modelled;
    - the exception classes are the constructors of [exn], with the
      subclass relation given by [isinstance]. *)

From Stdlib Require Import ZArith List Bool Lia.
From Stdlib Require String.
Import ListNotations String.StringSyntax.
Local Open Scope Z_scope.

(** ** Status and exceptions *)

Module Status.

(** [class Status(enum.Enum)] *)
Inductive t : Set := Unstarted | Started | Stopped | Canceled.

Definition eqb (a b : t) : bool :=
  match a, b with
  | Unstarted, Unstarted | Started, Started
  | Stopped, Stopped | Canceled, Canceled => true
  | _, _ => false
  end.

End Status.

(** The exceptions a call on the queue can end in.  [Canceled] is
    [class Canceled(StopIteration)] of the module; [Empty] and [Full]
    are [queue.Empty] and [queue.Full]; [RuntimeError] is what the
    interpreter raises when a [StopIteration] leaves a generator body,
    chained to its cause. *)
Inductive exn : Set :=
| Canceled
| StopIteration
| Empty
| Full
| ValueError
| RuntimeError (cause : exn).

(** The classes an [except] clause or the loop protocol tests against. *)
Inductive exn_class : Set :=
| cls_Canceled | cls_StopIteration | cls_Empty | cls_Full
| cls_ValueError | cls_RuntimeError.

(** [isinstance(e, c)]: [Canceled] derives from [StopIteration]. *)
Definition isinstance (e : exn) (c : exn_class) : bool :=
  match e, c with
  | Canceled, cls_Canceled => true
  | Canceled, cls_StopIteration => true
  | StopIteration, cls_StopIteration => true
  | Empty, cls_Empty => true
  | Full, cls_Full => true
  | ValueError, cls_ValueError => true
  | RuntimeError _, cls_RuntimeError => true
  | _, _ => false
  end.

(** [SPIN_TIME = 0.05] seconds, in milliseconds. *)
Definition SPIN_TIME : Z := 50.

Local Open Scope string_scope.

Definition CANCELED_TEXT : String.string :=
  "Queue is Canceled. This can not be undone".

Definition UNSTARTED_WARNING : String.string :=
  "`put`/`put_nowait` has been called on an Unstarted CloseableQueue".

Local Close Scope string_scope.

(** Truth value of a number-or-[None]: [None] and zero are false. *)
Definition truthy (x : option Z) : bool :=
  match x with
  | Some z => negb (z =? 0)
  | None => false
  end.

Section Queue.

(** The payload; the queue puts no condition on it. *)
Variable item : Type.

(** ** The instance *)

(** [status], [writers], [canceled] are the three private fields of
    [Iterqueue] ([canceled] is the [threading.Event], as its flag);
    [maxsize] and [queue] are the fields of the [queue.Queue] it
    extends (the deque, oldest item first). *)
Record Iterqueue : Type := mkIterqueue {
  status : Status.t;
  writers : Z;
  canceled : bool;
  maxsize : Z;
  queue : list item
}.

Definition set_status (s : Status.t) (q : Iterqueue) : Iterqueue :=
  mkIterqueue s (writers q) (canceled q) (maxsize q) (queue q).

Definition set_writers (n : Z) (q : Iterqueue) : Iterqueue :=
  mkIterqueue (status q) n (canceled q) (maxsize q) (queue q).

Definition set_canceled (b : bool) (q : Iterqueue) : Iterqueue :=
  mkIterqueue (status q) (writers q) b (maxsize q) (queue q).

Definition set_queue (l : list item) (q : Iterqueue) : Iterqueue :=
  mkIterqueue (status q) (writers q) (canceled q) (maxsize q) l.

(** [Iterqueue.__init__], called as [Iterqueue(maxsize)];
    [Iterqueue()] is [__init__ 0]. *)
Definition __init__ (maxsize : Z) : Iterqueue :=
  mkIterqueue Status.Unstarted 0 false maxsize [].

(** [Iterqueue.cancel] *)
Definition cancel (q : Iterqueue) : Iterqueue :=
  set_status Status.Canceled (set_canceled true q).

(** [Iterqueue.__enter__] *)
Definition __enter__ (q : Iterqueue) : Iterqueue :=
  let q := set_writers (writers q + 1) q in
  if negb (Status.eqb (status q) Status.Started)
  then set_status Status.Started q
  else q.

(** [Iterqueue.__exit__] *)
Definition __exit__ (q : Iterqueue) : Iterqueue :=
  let q := set_writers (writers q - 1) q in
  if writers q <? 1
  then set_status Status.Stopped q
  else q.

(** [Iterqueue.__bool__] *)
Definition __bool__ (q : Iterqueue) : bool := canceled q.

(** ** Worlds and outcomes *)

(** What a call can see and change: the instance, the clock
    ([time.time()], in milliseconds), how many times the calling
    thread has slept, and the warnings emitted so far. *)
Record World : Type := mkWorld {
  self : Iterqueue;
  clock : Z;
  naps : nat;
  warned : list String.string
}.

Definition with_self (q : Iterqueue) (w : World) : World :=
  mkWorld q (clock w) (naps w) (warned w).

Inductive outcome (X : Type) : Type :=
| Return (x : X) (w : World)
| Raise (e : exn) (w : World)
| Hang (w : World).

Arguments Return {X} x w.
Arguments Raise {X} e w.
Arguments Hang {X} w.

(** What the other threads do to the instance while the caller
    sleeps for the [k]-th time. *)
Variable others : nat -> Iterqueue -> Iterqueue.

(** [time.sleep(d)] *)
Definition sleep (d : Z) (w : World) : World :=
  mkWorld (others (naps w) (self w)) (clock w + d) (S (naps w)) (warned w).

(** [warnings.warn(msg)] *)
Definition warn (msg : String.string) (w : World) : World :=
  mkWorld (self w) (clock w) (naps w) (warned w ++ [msg]).

(** ** The storage: [queue.Queue] of the standard library

    Its [put] and [get] as [Lib/queue.py] has them, without the locks
    and the count of unfinished tasks, which [Iterqueue] never reads.
    A blocking call that finds the storage full (or empty) waits on a
    condition of the storage: without a timeout the caller is parked
    ([Hang]); with one, and nobody to wake it, the call runs to its end
    time. *)

(** [Queue.put(self, item, block, timeout)] *)
Definition Queue_put (x : item) (block : bool) (timeout : option Z)
    (w : World) : outcome unit :=
  let q := self w in
  let full := Z.of_nat (length (queue q)) >=? maxsize q in
  let store w := Return tt (with_self (set_queue (queue q ++ [x]) q) w) in
  if 0 <? maxsize q then
    if negb block then
      if full then Raise Full w else store w
    else
      match timeout with
      | None => if full then Hang w else store w
      | Some t =>
          if t <? 0 then Raise ValueError w
          else if full
               then Raise Full (mkWorld q (clock w + t) (naps w) (warned w))
               else store w
      end
  else store w.

(** [Queue.get(self, block, timeout)] *)
Definition Queue_get (block : bool) (timeout : option Z)
    (w : World) : outcome item :=
  let q := self w in
  match queue q with
  | x :: rest =>
      if block && match timeout with Some t => t <? 0 | None => false end
      then Raise ValueError w
      else Return x (with_self (set_queue rest q) w)
  | [] =>
      if negb block then Raise Empty w
      else
        match timeout with
        | None => Hang w
        | Some t =>
            if t <? 0 then Raise ValueError w
            else Raise Empty (mkWorld q (clock w + t) (naps w) (warned w))
        end
  end.

(** ** The overrides *)

(** The first line of [Iterqueue.get]:
    [deadline = time.time() + timeout if block and timeout else None] *)
Definition deadline_of (now : Z) (block : bool) (timeout : option Z)
    : option Z :=
  match timeout with
  | Some t => if block && truthy timeout then Some (now + t) else None
  | None => None
  end.

(** The [while True] loop of [Iterqueue.get]; one unit of fuel per
    pass. *)
Fixpoint get_loop (fuel : nat) (block : bool) (deadline : option Z)
    (w : World) : outcome item :=
  match fuel with
  | O => Hang w
  | S fuel' =>
      if Status.eqb (status (self w)) Status.Canceled
      then Raise Canceled w
      else
        match Queue_get false None w with
        | Raise Empty w' =>
            if Status.eqb (status (self w')) Status.Stopped
            then Raise StopIteration w'
            else if truthy deadline
                    && match deadline with
                       | Some d => clock w' <? d
                       | None => false
                       end
            then get_loop fuel' block deadline (sleep SPIN_TIME w')
            else if block && negb (truthy deadline)
            then get_loop fuel' block deadline (sleep SPIN_TIME w')
            else Raise Empty w'
        | r => r
        end
  end.

(** [Iterqueue.get(self, block=True, timeout=None)] *)
Definition get (fuel : nat) (block : bool) (timeout : option Z)
    (w : World) : outcome item :=
  get_loop fuel block (deadline_of (clock w) block timeout) w.

(** [Iterqueue.get_nowait] *)
Definition get_nowait (fuel : nat) (w : World) : outcome item :=
  get fuel false None w.

(** [Iterqueue.put(self, item, block=True, timeout=None)] *)
Definition put (x : item) (block : bool) (timeout : option Z)
    (w : World) : outcome unit :=
  if Status.eqb (status (self w)) Status.Canceled
  then Raise Canceled w
  else
    let w := if Status.eqb (status (self w)) Status.Unstarted
             then warn UNSTARTED_WARNING w
             else w in
    Queue_put x block timeout w.

(** [Queue.put_nowait] of the standard library is
    [return self.put(item, block=False)]: the call goes back through
    the instance, so it reaches the [put] of the subclass. *)
Definition Queue_put_nowait
    (self_put : item -> bool -> option Z -> World -> outcome unit)
    (x : item) (w : World) : outcome unit :=
  self_put x false None w.

(** [Iterqueue.put_nowait]: [return super().put_nowait(item)] *)
Definition put_nowait (x : item) (w : World) : outcome unit :=
  Queue_put_nowait put x w.

(** ** Iteration *)

(** [Iterqueue.__next__]: [return self.get()] *)
Definition __next__ (fuel : nat) (w : World) : outcome item :=
  get fuel true None w.

(** A generator object made by [iter_nowait()].  Its frame holds only
    the program point: before the first [next], suspended at the
    [yield], or finished. *)
Inductive generator : Set := gen_created | gen_suspended | gen_finished.

(** [Iterqueue.iter_nowait]: calling it runs nothing of the body. *)
Definition iter_nowait : generator := gen_created.

(** How a resumption of a generator body ends. *)
Inductive resumption : Type :=
| Yielded (x : item) (w : World)
| Returned (w : World)
| Raised (e : exn) (w : World)
| Pending (w : World).

(** The body of [iter_nowait], from where it was left up to the next
    [yield]: created and suspended frames both go to the head of the
    [while True] loop.  The [except] clauses are tried in the order of
    the source. *)
Definition iter_nowait_body (fuel : nat) (w : World) : resumption :=
  match get_nowait fuel w with
  | Return x w' => Yielded x w'
  | Raise e w' =>
      if isinstance e cls_Canceled then Raised e w'
      else if isinstance e cls_StopIteration then Returned w'
      else Raised e w'
  | Hang w' => Pending w'
  end.

(** [next(g)] on a generator of [iter_nowait], by the generator
    protocol: a body that returns raises [StopIteration] to the
    caller; a [StopIteration] (or an instance of a subclass) that
    leaves the body is replaced by a [RuntimeError] chained to it
    (PEP 479); a finished generator raises [StopIteration]. *)
Definition generator_next (fuel : nat) (g : generator) (w : World)
    : generator * outcome item :=
  match g with
  | gen_finished => (gen_finished, Raise StopIteration w)
  | _ =>
      match iter_nowait_body fuel w with
      | Yielded x w' => (gen_suspended, Return x w')
      | Returned w' => (gen_finished, Raise StopIteration w')
      | Raised e w' =>
          (gen_finished,
           Raise (if isinstance e cls_StopIteration
                  then RuntimeError e else e) w')
      | Pending w' => (g, Hang w')
      end
  end.

(** [next(q)] on the queue itself, which is its own iterator
    ([__iter__] returns [self]); there is no iterator state. *)
Definition queue_next (fuel : nat) (u : unit) (w : World)
    : unit * outcome item :=
  (u, __next__ fuel w).

(** How a loop over an iterator ends: the iterator raised an instance
    of [StopIteration] and the loop is over, with the items it went
    through; another exception left the loop; or the loop is still
    running. *)
Inductive loop_outcome : Type :=
| Ended (items : list item) (w : World)
| Propagated (e : exn) (items : list item) (w : World)
| Running (items : list item) (w : World).

(** [for x in it: acc.append(x)], which is also [list(it)] and
    [[x for x in it]]: the loop calls [next], and takes any instance
    of [StopIteration] as the end of the iteration. *)
Fixpoint for_each {St : Type} (next : St -> World -> St * outcome item)
    (rounds : nat) (it : St) (w : World) (acc : list item)
    : loop_outcome :=
  match rounds with
  | O => Running acc w
  | S rounds' =>
      match next it w with
      | (it', Return x w') => for_each next rounds' it' w' (acc ++ [x])
      | (_, Raise e w') =>
          if isinstance e cls_StopIteration
          then Ended acc w'
          else Propagated e acc w'
      | (_, Hang w') => Running acc w'
      end
  end.

(** [list(q)] *)
Definition list_of_queue (rounds fuel : nat) (w : World) : loop_outcome :=
  for_each (queue_next fuel) rounds tt w [].

(** [list(q.iter_nowait())] *)
Definition list_of_iter_nowait (rounds fuel : nat) (w : World)
    : loop_outcome :=
  for_each (generator_next fuel) rounds iter_nowait w [].

(** ** Writers *)

(** [with q: for x in xs: q.put(x)]: one writer scope.  The scope is
    left on every path, also when a [put] raises. *)
Fixpoint put_all (xs : list item) (w : World) : outcome unit :=
  match xs with
  | [] => Return tt w
  | x :: xs' =>
      match put x true None w with
      | Return _ w' => put_all xs' w'
      | r => r
      end
  end.

Definition leave (X : Type) (r : outcome X) : outcome X :=
  match r with
  | Return x w => Return x (with_self (__exit__ (self w)) w)
  | Raise e w => Raise e (with_self (__exit__ (self w)) w)
  | Hang w => Hang w
  end.

Definition writer_scope (xs : list item) (w : World) : outcome unit :=
  leave unit (put_all xs (with_self (__enter__ (self w)) w)).

(** One writer scope after the other. *)
Fixpoint writer_scopes (xss : list (list item)) (w : World)
    : outcome unit :=
  match xss with
  | [] => Return tt w
  | xs :: xss' =>
      match writer_scope xs w with
      | Return _ w' => writer_scopes xss' w'
      | r => r
      end
  end.

(** [k] successive [q.get()] calls of one reader, with what they
    returned. *)
Fixpoint gets (k : nat) (fuel : nat) (w : World)
    : outcome (list item) :=
  match k with
  | O => Return [] w
  | S k' =>
      match get fuel true None w with
      | Return x w' =>
          match gets k' fuel w' with
          | Return xs w'' => Return (x :: xs) w''
          | r => r
          end
      | Raise e w' => Raise e w'
      | Hang w' => Hang w'
      end
  end.

End Queue.

Arguments mkIterqueue {item}.
Arguments status {item}.
Arguments writers {item}.
Arguments canceled {item}.
Arguments maxsize {item}.
Arguments queue {item}.
Arguments set_status {item}.
Arguments set_writers {item}.
Arguments set_canceled {item}.
Arguments set_queue {item}.
Arguments __init__ {item}.
Arguments cancel {item}.
Arguments __enter__ {item}.
Arguments __exit__ {item}.
Arguments __bool__ {item}.
Arguments mkWorld {item}.
Arguments self {item}.
Arguments clock {item}.
Arguments naps {item}.
Arguments warned {item}.
Arguments with_self {item}.
Arguments Return {item X}.
Arguments Raise {item X}.
Arguments Hang {item X}.
Arguments sleep {item}.
Arguments warn {item}.
Arguments Queue_put {item}.
Arguments Queue_get {item}.
Arguments get_loop {item}.
Arguments get {item}.
Arguments get_nowait {item}.
Arguments put {item}.
Arguments Queue_put_nowait {item}.
Arguments put_nowait {item}.
Arguments __next__ {item}.
Arguments Yielded {item}.
Arguments Returned {item}.
Arguments Raised {item}.
Arguments Pending {item}.
Arguments iter_nowait_body {item}.
Arguments generator_next {item}.
Arguments queue_next {item}.
Arguments Ended {item}.
Arguments Propagated {item}.
Arguments Running {item}.
Arguments for_each {item St}.
Arguments list_of_queue {item}.
Arguments list_of_iter_nowait {item}.
Arguments put_all {item}.
Arguments leave {item X}.
Arguments writer_scope {item}.
Arguments writer_scopes {item}.
Arguments gets {item}.

(** The other threads leave the instance alone. *)
Definition idle {item : Type} : nat -> Iterqueue item -> Iterqueue item :=
  fun _ q => q.

(** A world at time [now] in which nothing has happened yet. *)
Definition world {item : Type} (q : Iterqueue item) (now : Z) : World item :=
  mkWorld q now O [].

(** The queue has nothing to hand out and is neither closed nor
    canceled: the situation in which a reader has to wait. *)
Definition waiting {item : Type} (q : Iterqueue item) : Prop :=
  queue q = [] /\ status q <> Status.Stopped /\ status q <> Status.Canceled.

(** The other threads never end the wait: they neither put, nor close
    the last writer scope, nor cancel. *)
Definition never_wake {item : Type}
    (others : nat -> Iterqueue item -> Iterqueue item) : Prop :=
  forall k q, waiting q -> waiting (others k q).

(** A loop that ended because an exception left it. *)
Definition ends_abnormally {item : Type} (o : loop_outcome item) : bool :=
  match o with
  | Propagated _ _ _ => true
  | _ => false
  end.

(** Another thread cancels the queue during the [k0]-th sleep of the
    caller, counted from 0. *)
Definition cancel_at {item : Type} (k0 : nat)
    : nat -> Iterqueue item -> Iterqueue item :=
  fun k q => if Nat.eqb k k0 then cancel q else q.

(** The world once the reader has taken everything. *)
Definition emptied {item : Type} (w : World item) : World item :=
  with_self (set_queue [] (self w)) w.

(** There is room for [xs] on top of what is stored. *)
Definition room {item : Type} (q : Iterqueue item) (xs : list item) : Prop :=
  maxsize q <= 0
  \/ Z.of_nat (length (queue q) + length xs) <= maxsize q.

(** The world after writer scopes that were opened with no other scope
    open, have put [xs] and are all left. *)
Definition written {item : Type} (xs : list item) (w : World item)
    : World item :=
  with_self (mkIterqueue Status.Stopped 0 (canceled (self w))
                         (maxsize (self w)) (queue (self w) ++ xs)) w.

(** ** Calls from outside *)

(** The other threads are idle but for the [k0]-th sleep of the caller,
    counted from 0, during which one of them runs [f]. *)
Definition at_nap {item : Type} (k0 : nat)
    (f : Iterqueue item -> Iterqueue item)
    : nat -> Iterqueue item -> Iterqueue item :=
  fun k q => if Nat.eqb k k0 then f q else q.

(** The world a call leaves, however it ends. *)
Definition world_of {item X : Type} (r : outcome item X) : World item :=
  match r with
  | Return _ w => w
  | Raise _ w => w
  | Hang w => w
  end.

(** What a [put_nowait(x)] of another thread does to the instance. *)
Definition other_put {item : Type} (x : item) (q : Iterqueue item)
    : Iterqueue item :=
  self (world_of (put_nowait x (world q 0))).

(** The world [k] sleeps of [SPIN_TIME] later, with [q] as the
    instance. *)
Definition later {item : Type} (k : nat) (q : Iterqueue item)
    (w : World item) : World item :=
  mkWorld q (clock w + Z.of_nat k * SPIN_TIME) (naps w + k) (warned w).

(** The calls of the public interface, as a client makes them. *)
Inductive call (item : Type) : Type :=
| call_cancel
| call_enter
| call_exit
| call_put (x : item) (block : bool) (timeout : option Z)
| call_put_nowait (x : item)
| call_get (block : bool) (timeout : option Z)
| call_get_nowait
| call_next.

Arguments call_cancel {item}.
Arguments call_enter {item}.
Arguments call_exit {item}.
Arguments call_put {item}.
Arguments call_put_nowait {item}.
Arguments call_get {item}.
Arguments call_get_nowait {item}.
Arguments call_next {item}.

Definition is_cancel {item : Type} (c : call item) : bool :=
  match c with
  | call_cancel => true
  | _ => false
  end.

Definition is_enter {item : Type} (c : call item) : bool :=
  match c with
  | call_enter => true
  | _ => false
  end.

Definition is_exit {item : Type} (c : call item) : bool :=
  match c with
  | call_exit => true
  | _ => false
  end.

(** The status agrees with a count that says a writer scope is open. *)
Definition scope_status_ok {item : Type} (q : Iterqueue item) : Prop :=
  1 <= writers q ->
  status q = Status.Started \/ status q = Status.Canceled.

(** The world after one call, whether it returned, raised or is still
    polling when the fuel ran out. *)
Definition after_call {item : Type}
    (others : nat -> Iterqueue item -> Iterqueue item) (fuel : nat)
    (c : call item) (w : World item) : World item :=
  match c with
  | call_cancel => with_self (cancel (self w)) w
  | call_enter => with_self (__enter__ (self w)) w
  | call_exit => with_self (__exit__ (self w)) w
  | call_put x block timeout => world_of (put x block timeout w)
  | call_put_nowait x => world_of (put_nowait x w)
  | call_get block timeout => world_of (get others fuel block timeout w)
  | call_get_nowait => world_of (get_nowait others fuel w)
  | call_next => world_of (__next__ others fuel w)
  end.

(** The world after a sequence of calls. *)
Fixpoint after_calls {item : Type}
    (others : nat -> Iterqueue item -> Iterqueue item) (fuel : nat)
    (cs : list (call item)) (w : World item) : World item :=
  match cs with
  | [] => w
  | c :: cs' => after_calls others fuel cs' (after_call others fuel c w)
  end.

(** A writer scope per batch, each followed by [list(q)] of the reader:
    what the reader collected, batch by batch. *)
Fixpoint fill_and_drain {item : Type}
    (others : nat -> Iterqueue item -> Iterqueue item) (rounds fuel : nat)
    (batches : list (list item)) (w : World item)
    : option (list (list item) * World item) :=
  match batches with
  | [] => Some ([], w)
  | xs :: rest =>
      match writer_scope xs w with
      | Return _ w1 =>
          match list_of_queue others rounds fuel w1 with
          | Ended got w2 =>
              match fill_and_drain others rounds fuel rest w2 with
              | Some (gots, w3) => Some (got :: gots, w3)
              | None => None
              end
          | _ => None
          end
      | _ => None
      end
  end.

(** * Properties *)

Lemma status_eqb_spec (a b : Status.t) : reflect (a = b) (Status.eqb a b).
Proof. destruct a, b; simpl; constructor; congruence. Qed.

Section Facts.

Context {item : Type}.
Variable others : nat -> Iterqueue item -> Iterqueue item.

Implicit Types (q : Iterqueue item) (w : World item) (x : item).

(** ** One pass of [get] *)

Ltac status_cases w :=
  destruct (status_eqb_spec (status (self w)) Status.Canceled);
  destruct (status_eqb_spec (status (self w)) Status.Stopped);
  try congruence.

Lemma get_loop_canceled fuel block deadline w :
  status (self w) = Status.Canceled ->
  get_loop others (S fuel) block deadline w = Raise Canceled w.
Proof. intros H. simpl. now rewrite H. Qed.

Lemma get_loop_head fuel block deadline w x rest :
  status (self w) <> Status.Canceled ->
  queue (self w) = x :: rest ->
  get_loop others (S fuel) block deadline w
  = Return x (with_self (set_queue rest (self w)) w).
Proof.
  intros Hc Hq. simpl.
  destruct (status_eqb_spec (status (self w)) Status.Canceled); [easy|].
  unfold Queue_get. now rewrite Hq.
Qed.

Lemma get_loop_stopped fuel block deadline w :
  status (self w) = Status.Stopped ->
  queue (self w) = [] ->
  get_loop others (S fuel) block deadline w = Raise StopIteration w.
Proof.
  intros Hs Hq. simpl. unfold Queue_get. rewrite Hq, Hs. simpl.
  now rewrite Hs.
Qed.

Lemma get_loop_nonblocking fuel w :
  waiting (self w) ->
  get_loop others (S fuel) false None w = Raise Empty w.
Proof.
  intros (Hq & Hs & Hc). simpl. unfold Queue_get. rewrite Hq. simpl.
  status_cases w.
Qed.

Lemma get_loop_forever fuel deadline w :
  truthy deadline = false ->
  waiting (self w) ->
  get_loop others (S fuel) true deadline w
  = get_loop others fuel true deadline (sleep others SPIN_TIME w).
Proof.
  intros Hd (Hq & Hs & Hc). simpl. unfold Queue_get. rewrite Hq. simpl.
  status_cases w. now rewrite Hd.
Qed.

(** What a raise of [get] tells about the instance it left. *)
Lemma get_loop_raise fuel block deadline w e w' :
  get_loop others fuel block deadline w = Raise e w' ->
  (e = Canceled /\ status (self w') = Status.Canceled)
  \/ (e = StopIteration /\ status (self w') = Status.Stopped
      /\ queue (self w') = [])
  \/ (e = Empty /\ waiting (self w')).
Proof.
  revert w. induction fuel as [|fuel IH]; intros w; simpl; [discriminate|].
  destruct (status_eqb_spec (status (self w)) Status.Canceled) as [Hc|Hc].
  - intros [= <- <-]. now left.
  - unfold Queue_get. destruct (queue (self w)) eqn:Hq; [|discriminate].
    simpl.
    destruct (status_eqb_spec (status (self w)) Status.Stopped) as [Hs|Hs].
    + intros [= <- <-]. right; left. now repeat split.
    + destruct (truthy deadline && _); [apply IH|].
      destruct (block && _); [apply IH|].
      intros [= <- <-]. right; right. now repeat split.
Qed.

(** More fuel does not change a call that came back. *)
Lemma get_loop_fuel_mono fuel extra block deadline w :
  (forall w', get_loop others fuel block deadline w <> Hang w') ->
  get_loop others (fuel + extra) block deadline w
  = get_loop others fuel block deadline w.
Proof.
  revert w. induction fuel as [|fuel IH]; intros w H.
  - now destruct (H w).
  - simpl in *.
    destruct (Status.eqb (status (self w)) Status.Canceled); [easy|].
    destruct (Queue_get false None w) as [| [] w1 |]; try easy.
    destruct (Status.eqb (status (self w1)) Status.Stopped); [easy|].
    destruct (truthy deadline && _); [now apply IH|].
    destruct (block && _); [now apply IH|easy].
Qed.

(** ** [put] *)

Lemma put_canceled x block timeout w :
  status (self w) = Status.Canceled ->
  put x block timeout w = Raise Canceled w.
Proof. intros H. unfold put. now rewrite H. Qed.

Lemma get_canceled fuel block timeout w :
  status (self w) = Status.Canceled ->
  get others (S fuel) block timeout w = Raise Canceled w.
Proof. intros H. now apply get_loop_canceled. Qed.

Lemma get_stopped fuel block timeout w :
  status (self w) = Status.Stopped ->
  queue (self w) = [] ->
  get others (S fuel) block timeout w = Raise StopIteration w.
Proof. intros Hs Hq. unfold get. now apply get_loop_stopped. Qed.

(** While the status is [Canceled], every call that reads or writes
    raises [Canceled] and leaves the world as it is, whatever is
    buffered. *)
Lemma canceled_status_refuses fuel block timeout x w :
  status (self w) = Status.Canceled ->
  get others (S fuel) block timeout w = Raise Canceled w
  /\ get_nowait others (S fuel) w = Raise Canceled w
  /\ __next__ others (S fuel) w = Raise Canceled w
  /\ put x block timeout w = Raise Canceled w
  /\ put_nowait x w = Raise Canceled w.
Proof.
  intros H. unfold get_nowait, __next__, put_nowait, Queue_put_nowait.
  now rewrite !get_canceled, !put_canceled.
Qed.

End Facts.

(** ** The status machine *)

Section Lifecycle.

Context {item : Type}.
Implicit Types (q : Iterqueue item).

Lemma enter_writers q : writers (__enter__ q) = writers q + 1.
Proof. unfold __enter__. simpl. now destruct (negb _). Qed.

Lemma enter_status q : status (__enter__ q) = Status.Started.
Proof.
  unfold __enter__. simpl.
  now destruct (status_eqb_spec (status q) Status.Started).
Qed.

Lemma enter_queue q : queue (__enter__ q) = queue q.
Proof. unfold __enter__. simpl. now destruct (negb _). Qed.

Lemma enter_maxsize q : maxsize (__enter__ q) = maxsize q.
Proof. unfold __enter__. simpl. now destruct (negb _). Qed.

Lemma enter_canceled q : canceled (__enter__ q) = canceled q.
Proof. unfold __enter__. simpl. now destruct (negb _). Qed.

Lemma exit_writers q : writers (__exit__ q) = writers q - 1.
Proof. unfold __exit__. simpl. now destruct (_ <? _). Qed.

Lemma exit_status q :
  status (__exit__ q)
  = if writers q - 1 <? 1 then Status.Stopped else status q.
Proof. unfold __exit__. simpl. now destruct (_ <? _). Qed.

Lemma exit_queue q : queue (__exit__ q) = queue q.
Proof. unfold __exit__. simpl. now destruct (_ <? _). Qed.

Lemma exit_maxsize q : maxsize (__exit__ q) = maxsize q.
Proof. unfold __exit__. simpl. now destruct (_ <? _). Qed.

Lemma exit_canceled q : canceled (__exit__ q) = canceled q.
Proof. unfold __exit__. simpl. now destruct (_ <? _). Qed.

Lemma iter_enter_writers k q :
  writers (Nat.iter k __enter__ q) = writers q + Z.of_nat k.
Proof.
  induction k as [|k IH]; [simpl; lia|].
  rewrite Nat.iter_succ, enter_writers, IH. lia.
Qed.

Lemma iter_exit_writers j q :
  writers (Nat.iter j __exit__ q) = writers q - Z.of_nat j.
Proof.
  induction j as [|j IH]; [simpl; lia|].
  rewrite Nat.iter_succ, exit_writers, IH. lia.
Qed.

(** Leaving scopes one by one: the status stays as it is until the
    count gets below one. *)
Lemma iter_exit_status j q :
  status (Nat.iter j __exit__ q)
  = if (0 <? Z.of_nat j) && (writers q - Z.of_nat j <? 1)
    then Status.Stopped
    else if writers q <? 1 then
           if 0 <? Z.of_nat j then Status.Stopped else status q
         else status q.
Proof.
  induction j as [|j IH].
  - simpl. now destruct (writers q <? 1).
  - rewrite Nat.iter_succ, exit_status, iter_exit_writers, IH.
    destruct (Z.ltb_spec (writers q - Z.of_nat j - 1) 1);
      destruct (Z.ltb_spec 0 (Z.of_nat (S j)));
      destruct (Z.ltb_spec (writers q - Z.of_nat (S j)) 1);
      destruct (Z.ltb_spec 0 (Z.of_nat j));
      destruct (Z.ltb_spec (writers q - Z.of_nat j) 1);
      destruct (Z.ltb_spec (writers q) 1);
      simpl; try reflexivity; lia.
Qed.

End Lifecycle.

(** ** Draining *)

Section Draining.

Context {item : Type}.
Variable others : nat -> Iterqueue item -> Iterqueue item.

Implicit Types (q : Iterqueue item) (w : World item) (x : item)
         (xs acc : list item).

Lemma emptied_empty w : queue (self w) = [] -> emptied w = w.
Proof.
  destruct w as [[s n c m l] t k ws]. simpl. intros ->. reflexivity.
Qed.

Lemma emptied_taken w rest :
  emptied (with_self (set_queue rest (self w)) w) = emptied w.
Proof. reflexivity. Qed.

(** Successive [get()] calls take the buffered items oldest first. *)
Lemma gets_take fuel xs : forall w rest,
  status (self w) <> Status.Canceled ->
  queue (self w) = xs ++ rest ->
  gets others (length xs) (S fuel) w
  = Return xs (with_self (set_queue rest (self w)) w).
Proof.
  induction xs as [|x xs IH]; intros w rest Hc Hq.
  - simpl in *. rewrite <- Hq. now destruct w as [[] ? ? ?].
  - cbn [length gets]. unfold get.
    rewrite (get_loop_head others fuel _ _ w x (xs ++ rest) Hc Hq).
    rewrite (IH _ rest); [reflexivity | exact Hc | reflexivity].
Qed.

Lemma for_each_step {St : Type}
    (next : St -> World item -> St * outcome item item)
    rounds (it : St) w acc :
  for_each next (S rounds) it w acc
  = match next it w with
    | (it', Return x w') => for_each next rounds it' w' (acc ++ [x])
    | (_, Raise e w') =>
        if isinstance e cls_StopIteration
        then Ended acc w'
        else Propagated e acc w'
    | (_, Hang w') => Running acc w'
    end.
Proof. reflexivity. Qed.

(** A loop over a closed queue goes through what is buffered and
    ends. *)
Lemma for_each_queue_stopped fuel extra : forall xs w acc,
  status (self w) = Status.Stopped ->
  queue (self w) = xs ->
  for_each (queue_next others (S fuel)) (S (length xs) + extra) tt w acc
  = Ended (acc ++ xs) (emptied w).
Proof.
  induction xs as [|x xs IH]; intros w acc Hs Hq.
  - change (S (length (A:=item) []) + extra)%nat with (S extra).
    rewrite for_each_step. unfold queue_next, __next__.
    rewrite get_stopped by assumption.
    simpl. now rewrite app_nil_r, emptied_empty.
  - change (S (length (x :: xs)) + extra)%nat
      with (S (S (length xs) + extra)).
    rewrite for_each_step. unfold queue_next, __next__, get.
    rewrite (get_loop_head others fuel _ _ w x xs) by (congruence || easy).
    rewrite (IH _ (acc ++ [x])); [|exact Hs|reflexivity].
    now rewrite <- app_assoc.
Qed.

(** A loop over a queue whose status is [Canceled] ends at once, as
    it does on a closed and empty one. *)
Lemma for_each_queue_canceled fuel rounds w acc :
  status (self w) = Status.Canceled ->
  for_each (queue_next others (S fuel)) (S rounds) tt w acc = Ended acc w.
Proof.
  intros Hc. rewrite for_each_step. unfold queue_next, __next__.
  now rewrite get_canceled.
Qed.

(** One [next] on a live generator of [iter_nowait]. *)
Lemma generator_next_head fuel g w x rest :
  g <> gen_finished ->
  status (self w) <> Status.Canceled ->
  queue (self w) = x :: rest ->
  generator_next others (S fuel) g w
  = (gen_suspended, Return x (with_self (set_queue rest (self w)) w)).
Proof.
  intros Hg Hc Hq.
  unfold generator_next, iter_nowait_body, get_nowait, get.
  cbn [deadline_of].
  rewrite (get_loop_head others fuel _ _ w x rest Hc Hq).
  now destruct g.
Qed.

Lemma generator_next_stopped fuel g w :
  g <> gen_finished ->
  status (self w) = Status.Stopped ->
  queue (self w) = [] ->
  generator_next others (S fuel) g w = (gen_finished, Raise StopIteration w).
Proof.
  intros Hg Hs Hq.
  unfold generator_next, iter_nowait_body, get_nowait, get.
  cbn [deadline_of].
  rewrite get_loop_stopped by assumption.
  now destruct g.
Qed.

Lemma generator_next_waiting fuel g w :
  g <> gen_finished ->
  waiting (self w) ->
  generator_next others (S fuel) g w = (gen_finished, Raise Empty w).
Proof.
  intros Hg Hw.
  unfold generator_next, iter_nowait_body, get_nowait, get.
  cbn [deadline_of].
  rewrite get_loop_nonblocking by assumption.
  now destruct g.
Qed.

Lemma generator_next_canceled fuel g w :
  g <> gen_finished ->
  status (self w) = Status.Canceled ->
  generator_next others (S fuel) g w
  = (gen_finished, Raise (RuntimeError Canceled) w).
Proof.
  intros Hg Hc.
  unfold generator_next, iter_nowait_body, get_nowait.
  rewrite get_canceled by exact Hc.
  now destruct g.
Qed.

(** A loop over [iter_nowait()]: it goes through what is buffered;
    then, on a [Stopped] queue, the body catches [StopIteration] and
    the loop ends; otherwise [queue.Empty] leaves the generator and
    the loop. *)
Lemma for_each_generator_drain fuel extra : forall xs g w acc,
  g <> gen_finished ->
  status (self w) <> Status.Canceled ->
  queue (self w) = xs ->
  for_each (generator_next others (S fuel)) (S (length xs) + extra)
           g w acc
  = if Status.eqb (status (self w)) Status.Stopped
    then Ended (acc ++ xs) (emptied w)
    else Propagated Empty (acc ++ xs) (emptied w).
Proof.
  induction xs as [|x xs IH]; intros g w acc Hg Hc Hq.
  - change (S (length (A:=item) []) + extra)%nat with (S extra).
    rewrite for_each_step.
    rewrite app_nil_r, emptied_empty by exact Hq.
    destruct (status_eqb_spec (status (self w)) Status.Stopped) as [Hs|Hs].
    + now rewrite generator_next_stopped.
    + now rewrite generator_next_waiting.
  - change (S (length (x :: xs)) + extra)%nat
      with (S (S (length xs) + extra)).
    rewrite for_each_step.
    rewrite (generator_next_head fuel g w x xs Hg Hc Hq).
    rewrite (IH gen_suspended _ (acc ++ [x]));
      [|discriminate|exact Hc|reflexivity].
    now rewrite <- app_assoc.
Qed.

(** On a queue whose status is [Canceled], the [Canceled] that the
    body re-raises leaves the generator as a [RuntimeError]. *)
Lemma for_each_generator_canceled fuel rounds g w acc :
  g <> gen_finished ->
  status (self w) = Status.Canceled ->
  for_each (generator_next others (S fuel)) (S rounds) g w acc
  = Propagated (RuntimeError Canceled) acc w.
Proof.
  intros Hg Hc. rewrite for_each_step.
  now rewrite generator_next_canceled.
Qed.

End Draining.

(** ** Writing *)

Section Writing.

Context {item : Type}.

Implicit Types (q : Iterqueue item) (w : World item) (x : item)
         (xs : list item).

Lemma put_stores x w :
  status (self w) = Status.Started ->
  room (self w) [x] ->
  put x true None w
  = Return tt (with_self (set_queue (queue (self w) ++ [x]) (self w)) w).
Proof.
  intros Hs Hroom. unfold put, Queue_put. rewrite Hs. simpl.
  destruct (Z.ltb_spec 0 (maxsize (self w))); [|reflexivity].
  destruct (Z.geb_spec (Z.of_nat (length (queue (self w))))
                       (maxsize (self w))); [|reflexivity].
  destruct Hroom as [Hm|Hm]; simpl in Hm; lia.
Qed.

Lemma put_all_stores xs : forall w,
  status (self w) = Status.Started ->
  room (self w) xs ->
  put_all xs w
  = Return tt (with_self (set_queue (queue (self w) ++ xs) (self w)) w).
Proof.
  induction xs as [|x xs IH]; intros w Hs Hroom.
  - simpl. rewrite app_nil_r. now destruct w as [[] ? ? ?].
  - cbn [put_all]. rewrite put_stores; [|exact Hs|].
    + rewrite IH; [|exact Hs|].
      * simpl. now rewrite <- app_assoc.
      * destruct Hroom as [Hm|Hm]; [now left|right].
        simpl in *. rewrite length_app. simpl. lia.
    + destruct Hroom as [Hm|Hm]; [now left|right]. simpl in *. lia.
Qed.

Lemma writer_scope_writes xs w :
  writers (self w) = 0 ->
  room (self w) xs ->
  writer_scope xs w = Return tt (written xs w).
Proof.
  intros Hw Hroom. unfold writer_scope.
  rewrite put_all_stores.
  - destruct w as [[s n c m l] t k ws]. simpl in Hw. subst n.
    now destruct s.
  - simpl. apply enter_status.
  - unfold room in *. simpl. now rewrite enter_maxsize, enter_queue.
Qed.

Lemma writer_scopes_write xss : forall xs w,
  writers (self w) = 0 ->
  room (self w) (concat (xs :: xss)) ->
  writer_scopes (xs :: xss) w = Return tt (written (concat (xs :: xss)) w).
Proof.
  induction xss as [|ys xss IH]; intros xs w Hw Hroom.
  - cbn [writer_scopes concat] in *. rewrite app_nil_r in *.
    now rewrite writer_scope_writes.
  - cbn [writer_scopes]. rewrite writer_scope_writes; [|exact Hw|].
    + change (writer_scopes (ys :: xss) (written xs w)
              = Return tt (written (concat (xs :: ys :: xss)) w)).
      rewrite IH; [|reflexivity|].
      * unfold written. simpl. now rewrite <- app_assoc.
      * destruct Hroom as [Hm|Hm]; [now left|right].
        cbn [concat] in Hm. simpl in *.
        rewrite !length_app in *. lia.
    + destruct Hroom as [Hm|Hm]; [now left|right].
      cbn [concat] in Hm. rewrite !length_app in Hm. lia.
Qed.

End Writing.

(** ** Loops over the queue *)

Section Loops.

Context {item : Type}.
Variable others : nat -> Iterqueue item -> Iterqueue item.

Implicit Types (w : World item) (acc : list item).

(** A [get] that waits for ever never raises [queue.Empty]. *)
Lemma get_loop_forever_not_Empty fuel : forall w w',
  get_loop others fuel true None w <> Raise Empty w'.
Proof.
  induction fuel as [|fuel IH]; intros w w'; simpl; [discriminate|].
  destruct (Status.eqb (status (self w)) Status.Canceled); [discriminate|].
  unfold Queue_get. destruct (queue (self w)); [|discriminate]. simpl.
  destruct (Status.eqb (status (self w)) Status.Stopped); [discriminate|].
  apply IH.
Qed.

(** What [next(q)] can raise. *)
Lemma next_raise fuel w e w' :
  __next__ others fuel w = Raise e w' ->
  (e = Canceled /\ status (self w') = Status.Canceled)
  \/ (e = StopIteration /\ status (self w') = Status.Stopped
      /\ queue (self w') = []).
Proof.
  unfold __next__, get. simpl deadline_of. intros H.
  destruct (get_loop_raise others _ _ _ _ _ _ H) as [?|[?|[-> _]]];
    [now left | now right |].
  now apply get_loop_forever_not_Empty in H.
Qed.

(** No exception of the queue leaves a loop over it, whatever the
    other threads do, cancel included. *)
Lemma for_each_queue_never_abnormal fuel rounds : forall w acc,
  ends_abnormally (for_each (queue_next others fuel) rounds tt w acc)
  = false.
Proof.
  induction rounds as [|rounds IH]; intros w acc; [reflexivity|].
  rewrite for_each_step. unfold queue_next.
  destruct (__next__ others fuel w) as [x w'|e w'|w'] eqn:Hnext.
  - apply IH.
  - destruct (next_raise _ _ _ _ Hnext) as [[-> _]|[-> _]]; reflexivity.
  - reflexivity.
Qed.

End Loops.

(** A reader waits on an open, empty queue; another thread cancels
    during the third sleep; the reader's [get()] raises [Canceled] on
    its next pass, 150 ms after the call. *)
Example blocked_reader_is_canceled :
  get (cancel_at 2) 10 true None (world (__enter__ (@__init__ nat 0)) 0)
  = Raise Canceled (mkWorld (cancel (__enter__ (__init__ 0))) 150 3 []).
Proof. reflexivity. Qed.

(** A [get] with a timeout of 120 ms on an open, empty queue sleeps
    three times and re-raises [queue.Empty]. *)
Example timed_get_gives_up :
  get idle 10 true (Some 120) (world (__enter__ (@__init__ nat 0)) 1000)
  = Raise Empty (mkWorld (__enter__ (__init__ 0)) 1150 3 []).
Proof. reflexivity. Qed.

(** * The claims *)

(** C1.  [cancel] sets the status to [Canceled], and the writer scope
    undoes it: entering a scope on a canceled queue sets the status to
    [Started] while the cancel flag stays set, and leaving the last
    scope sets it to [Stopped].  The status is not terminal, against
    the docstring of [cancel] and [CANCELED_TEXT]. *)
Theorem cancel_undone_by_writer_scope :
  forall (item : Type) (q : Iterqueue item),
    status (cancel q) = Status.Canceled
    /\ status (__enter__ (cancel q)) = Status.Started
    /\ canceled (__enter__ (cancel q)) = true
    /\ status (__exit__ (cancel (__enter__ (@__init__ item 0))))
       = Status.Stopped
    /\ canceled (__exit__ (cancel (__enter__ (@__init__ item 0)))) = true.
Proof.
  intros item q. repeat split; reflexivity.
Qed.

(** C2, as amended.  When [next(q)] raises, a loop over the queue ends
    there, and ends normally, with no exception leaving it: [next(q)]
    raises either plain [StopIteration], on a [Stopped] and empty
    queue, or [Canceled], on a queue whose status is [Canceled], and
    [Canceled] is a [StopIteration] for the loop.  The two are told
    apart by the class of the exception, by a caller that calls
    [next(q)] itself, and by the status the call leaves. *)
Theorem queue_loop_ends_normally_on_cancel :
  forall (item : Type) (others : nat -> Iterqueue item -> Iterqueue item)
         (fuel rounds : nat) (w w' : World item) (e : exn),
    __next__ others fuel w = Raise e w' ->
    list_of_queue others (S rounds) fuel w = Ended [] w'
    /\ ends_abnormally (list_of_queue others (S rounds) fuel w) = false
    /\ isinstance e cls_StopIteration = true
    /\ ((e = Canceled /\ status (self w') = Status.Canceled)
        \/ (e = StopIteration /\ status (self w') = Status.Stopped
            /\ queue (self w') = [])).
Proof.
  intros item others fuel rounds w w' e Hnext.
  pose proof (next_raise others _ _ _ _ Hnext) as Hcases.
  assert (Hinst : isinstance e cls_StopIteration = true)
    by (destruct Hcases as [[-> _]|[-> _]]; reflexivity).
  assert (Hloop : list_of_queue others (S rounds) fuel w = Ended [] w').
  { unfold list_of_queue. rewrite for_each_step. unfold queue_next.
    now rewrite Hnext, Hinst. }
  rewrite Hloop. now repeat split.
Qed.

Lemma queue_loop_ends_normally_on_cancel_witness :
  list_of_queue idle 1 1 (world (cancel (@__init__ nat 0)) 0)
  = Ended [] (world (cancel (__init__ 0)) 0)
  /\ ends_abnormally
       (list_of_queue idle 1 1 (world (cancel (@__init__ nat 0)) 0)) = false
  /\ isinstance Canceled cls_StopIteration = true
  /\ ((Canceled = Canceled
       /\ status (self (world (cancel (@__init__ nat 0)) 0))
          = Status.Canceled)
      \/ (Canceled = StopIteration
          /\ status (self (world (cancel (@__init__ nat 0)) 0))
             = Status.Stopped
          /\ queue (self (world (cancel (@__init__ nat 0)) 0)) = [])).
Proof.
  apply (queue_loop_ends_normally_on_cancel nat idle 1 0
           (world (cancel (__init__ 0)) 0)).
  reflexivity.
Defined.

(** C2, as stated, fails.  On a canceled queue that still holds an
    item, the [get] under [next(q)] raises [Canceled], and the loop
    over the queue ends normally, with no item and no exception: the
    same outcome as on a queue that is closed and empty. *)
Lemma canceled_loop_ends_like_exhausted :
  let busy := world (cancel (set_queue [7%nat] (__enter__ (__init__ 0)))) 0 in
  let done := world (__exit__ (__enter__ (@__init__ nat 0))) 0 in
  __next__ idle 1 busy = Raise Canceled busy
  /\ list_of_queue idle 1 1 busy = Ended [] busy
  /\ ends_abnormally (list_of_queue idle 1 1 busy) = false
  /\ __next__ idle 1 done = Raise StopIteration done
  /\ list_of_queue idle 1 1 done = Ended [] done.
Proof. repeat split. Qed.

(** C3.  A loop over [iter_nowait()] goes through the items that are
    buffered, oldest first.  It then ends normally only on a [Stopped]
    queue; on an [Unstarted] or [Started] one, [queue.Empty] leaves the
    generator and the loop, also when nothing was buffered.  On a queue
    whose status is [Canceled] the loop ends in a [RuntimeError] with
    [Canceled] as its cause.  The body does not stop on [queue.Empty]
    as its docstring says it does. *)
Theorem iter_nowait_ends_normally_only_when_Stopped :
  forall (item : Type) (others : nat -> Iterqueue item -> Iterqueue item)
         (xs : list item) (n : Z) (c : bool) (m : Z) (now : Z)
         (fuel extra : nat),
    let at_status s := world (mkIterqueue s n c m xs) now in
    let rounds := (S (length xs) + extra)%nat in
    list_of_iter_nowait others rounds (S fuel) (at_status Status.Unstarted)
    = Propagated Empty xs (emptied (at_status Status.Unstarted))
    /\ list_of_iter_nowait others rounds (S fuel) (at_status Status.Started)
       = Propagated Empty xs (emptied (at_status Status.Started))
    /\ list_of_iter_nowait others rounds (S fuel) (at_status Status.Stopped)
       = Ended xs (emptied (at_status Status.Stopped))
    /\ list_of_iter_nowait others rounds (S fuel) (at_status Status.Canceled)
       = Propagated (RuntimeError Canceled) [] (at_status Status.Canceled).
Proof.
  intros item others xs n c m now fuel extra at_status rounds.
  unfold list_of_iter_nowait, iter_nowait, rounds.
  split; [|split; [|split]].
  - now rewrite for_each_generator_drain.
  - now rewrite for_each_generator_drain.
  - now rewrite for_each_generator_drain.
  - change (S (length xs) + extra)%nat with (S (length xs + extra)).
    now rewrite for_each_generator_canceled.
Qed.

(** C4.  After [cancel()], [get], [get_nowait], [next] and [put] raise
    [Canceled] as long as the status is [Canceled]; but a writer scope
    entered after the cancel sets the status to [Started], and from
    then on [get] hands out the buffered item and [put] stores, on a
    queue whose cancel flag is set.  Leaving the scope sets [Stopped],
    and [get_nowait] still hands out the item. *)
Theorem canceled_queue_serves_again_after_writer_scope :
  forall (item : Type) (others : nat -> Iterqueue item -> Iterqueue item)
         (x y : item) (fuel : nat),
    let w1 := written [x] (world (__init__ 0) 0) in
    let w2 := with_self (cancel (self w1)) w1 in
    let w3 := with_self (__enter__ (self w2)) w2 in
    let w4 := with_self (__exit__ (self w3)) w3 in
    writer_scope [x] (world (__init__ 0) 0) = Return tt w1
    /\ get others (S fuel) true None w2 = Raise Canceled w2
    /\ put y true None w2 = Raise Canceled w2
    /\ canceled (self w3) = true
    /\ get others (S fuel) true None w3
       = Return x (with_self (set_queue [] (self w3)) w3)
    /\ put y true None w3
       = Return tt (with_self (set_queue [x; y] (self w3)) w3)
    /\ canceled (self w4) = true
    /\ get_nowait others (S fuel) w4
       = Return x (with_self (set_queue [] (self w4)) w4).
Proof. intros. repeat split. Qed.

(** C5.  On a queue that is [Stopped] and empty, [get] raises
    [StopIteration] in its first pass, whatever [block] and [timeout]
    are: the world it leaves is the one it found, so it has neither
    slept nor let any time pass. *)
Theorem get_stopped_empty_ends :
  forall (item : Type) (others : nat -> Iterqueue item -> Iterqueue item)
         (fuel : nat) (block : bool) (timeout : option Z) (w : World item),
    status (self w) = Status.Stopped ->
    queue (self w) = [] ->
    get others (S fuel) block timeout w = Raise StopIteration w.
Proof.
  intros item others fuel block timeout w Hs Hq.
  now apply get_stopped.
Qed.

Lemma get_stopped_empty_ends_witness :
  get idle 1 true (Some 3000)
      (world (__exit__ (__enter__ (@__init__ nat 0))) 0)
  = Raise StopIteration (world (__exit__ (__enter__ (__init__ 0))) 0).
Proof.
  apply (get_stopped_empty_ends nat idle 0 true (Some 3000)); reflexivity.
Defined.

(** C6.  On an empty queue that is neither [Stopped] nor [Canceled],
    [get(block=False)], with any timeout, and [get_nowait()] raise
    [queue.Empty] in the first pass, leaving the world as they found
    it: no sleep, no second pass. *)
Theorem get_nonblocking_empty_raises_Empty :
  forall (item : Type) (others : nat -> Iterqueue item -> Iterqueue item)
         (fuel : nat) (timeout : option Z) (w : World item),
    queue (self w) = [] ->
    status (self w) <> Status.Stopped ->
    status (self w) <> Status.Canceled ->
    get others (S fuel) false timeout w = Raise Empty w
    /\ get_nowait others (S fuel) w = Raise Empty w.
Proof.
  intros item others fuel timeout w Hq Hs Hc.
  assert (Hd : deadline_of (clock w) false timeout = None)
    by now destruct timeout.
  unfold get_nowait, get. rewrite Hd. simpl deadline_of.
  split; now apply get_loop_nonblocking.
Qed.

Lemma get_nonblocking_empty_raises_Empty_witness :
  get idle 1 false (Some 3000) (world (__enter__ (@__init__ nat 0)) 0)
  = Raise Empty (world (__enter__ (__init__ 0)) 0)
  /\ get_nowait idle 1 (world (__enter__ (@__init__ nat 0)) 0)
     = Raise Empty (world (__enter__ (__init__ 0)) 0).
Proof.
  apply (get_nonblocking_empty_raises_Empty nat idle 0 (Some 3000));
    [reflexivity | discriminate | discriminate].
Defined.

(** C7.  Writer scopes opened one after the other on a new queue, with
    room for all the items, store them in the order of the [put]s and
    leave the queue [Stopped].  A reader then gets, with successive
    [get()] calls, exactly these items in that order: the first [k]
    calls return the first [k] items, the call after the last item
    raises [StopIteration], and a loop over the queue collects the
    items, all of them, once each, and ends. *)
Theorem fifo_exactly_once :
  forall (item : Type) (others : nat -> Iterqueue item -> Iterqueue item)
         (xss : list (list item)) (m now : Z) (fuel extra : nat),
    xss <> [] ->
    m <= 0 \/ Z.of_nat (length (concat xss)) <= m ->
    let items := concat xss in
    exists w1 : World item,
      writer_scopes xss (world (__init__ m) now) = Return tt w1
      /\ status (self w1) = Status.Stopped
      /\ writers (self w1) = 0
      /\ queue (self w1) = items
      /\ (forall k : nat, (k <= length items)%nat ->
            gets others k (S fuel) w1
            = Return (firstn k items)
                     (with_self (set_queue (skipn k items) (self w1)) w1))
      /\ gets others (length items) (S fuel) w1 = Return items (emptied w1)
      /\ get others (S fuel) true None (emptied w1)
         = Raise StopIteration (emptied w1)
      /\ list_of_queue others (S (length items) + extra) (S fuel) w1
         = Ended items (emptied w1).
Proof.
  intros item others xss m now fuel extra Hne Hroom items.
  destruct xss as [|xs xss]; [contradiction|].
  exists (written items (world (__init__ m) now)).
  assert (Hgets : forall ys rest, items = ys ++ rest ->
            gets others (length ys) (S fuel)
                 (written items (world (__init__ m) now))
            = Return ys
                (with_self
                   (set_queue rest
                      (self (written items (world (__init__ m) now))))
                   (written items (world (__init__ m) now)))).
  { intros ys rest Hsplit. apply gets_take; [discriminate|exact Hsplit]. }
  split.
  { apply writer_scopes_write; [reflexivity|].
    destruct Hroom as [Hm|Hm]; [now left|right]. exact Hm. }
  split; [reflexivity|]. split; [reflexivity|]. split; [reflexivity|].
  split.
  { intros k Hk.
    rewrite <- (firstn_length_le items Hk) at 1.
    apply Hgets. symmetry. apply firstn_skipn. }
  split.
  { rewrite (Hgets items []); [reflexivity|]. now rewrite app_nil_r. }
  split.
  { now apply get_stopped. }
  unfold list_of_queue.
  now rewrite for_each_queue_stopped.
Qed.

Lemma fifo_exactly_once_witness :
  let items := concat [[1; 2]; [3]]%nat in
  exists w1 : World nat,
    writer_scopes [[1; 2]; [3]]%nat (world (__init__ 3) 0) = Return tt w1
    /\ status (self w1) = Status.Stopped
    /\ writers (self w1) = 0
    /\ queue (self w1) = items
    /\ (forall k : nat, (k <= length items)%nat ->
          gets idle k 1 w1
          = Return (firstn k items)
                   (with_self (set_queue (skipn k items) (self w1)) w1))
    /\ gets idle (length items) 1 w1 = Return items (emptied w1)
    /\ get idle 1 true None (emptied w1) = Raise StopIteration (emptied w1)
    /\ list_of_queue idle (S (length items) + 2) 1 w1
       = Ended items (emptied w1).
Proof.
  apply (fifo_exactly_once nat idle [[1; 2]; [3]]%nat 3 0 0 2).
  - discriminate.
  - right. simpl. lia.
Defined.

(** C8.  On a queue that is not canceled and has no writer scope open,
    opening [k >= 1] scopes gives [writers = k] and [Started]; leaving
    [j] of them gives [writers = k - j], with the status [Started] as
    long as a scope is open and [Stopped] once all [k] are left.  One
    [__exit__] of an open scope takes one off [writers], and the status
    after it is [Stopped] exactly when the count it leaves is 0. *)
Theorem writer_scopes_count_and_close :
  forall (item : Type) (q : Iterqueue item) (k : nat),
    status q <> Status.Canceled ->
    writers q = 0 ->
    (1 <= k)%nat ->
    let opened := Nat.iter k __enter__ q in
    writers opened = Z.of_nat k
    /\ status opened = Status.Started
    /\ writers (Nat.iter k __exit__ opened) = 0
    /\ status (Nat.iter k __exit__ opened) = Status.Stopped
    /\ (forall j : nat, (j < k)%nat ->
          let before := Nat.iter j __exit__ opened in
          writers before = Z.of_nat k - Z.of_nat j
          /\ status before = Status.Started
          /\ writers (__exit__ before) = writers before - 1
          /\ (status (__exit__ before) = Status.Stopped
              <-> writers (__exit__ before) = 0)).
Proof.
  intros item q k Hc Hw Hk opened.
  assert (Hwo : writers opened = Z.of_nat k).
  { unfold opened. rewrite iter_enter_writers. lia. }
  assert (Hso : status opened = Status.Started).
  { unfold opened. destruct k as [|k]; [lia|].
    rewrite Nat.iter_succ. apply enter_status. }
  split; [exact Hwo|]. split; [exact Hso|].
  split; [rewrite iter_exit_writers; lia|].
  split.
  - rewrite iter_exit_status, Hwo.
    destruct (Z.ltb_spec 0 (Z.of_nat k)); [|lia].
    destruct (Z.ltb_spec (Z.of_nat k - Z.of_nat k) 1); [reflexivity|lia].
  - intros j Hj before.
    assert (Hwb : writers before = Z.of_nat k - Z.of_nat j).
    { unfold before. rewrite iter_exit_writers. lia. }
    assert (Hsb : status before = Status.Started).
    { unfold before. rewrite iter_exit_status, Hwo, Hso.
      destruct (Z.ltb_spec (Z.of_nat k - Z.of_nat j) 1); [lia|].
      destruct (Z.ltb_spec (Z.of_nat k) 1); [lia|].
      now rewrite andb_false_r. }
    split; [exact Hwb|]. split; [exact Hsb|].
    rewrite exit_writers, exit_status, Hsb.
    split; [reflexivity|].
    destruct (Z.ltb_spec (writers before - 1) 1); split; intros; try lia;
      congruence.
Qed.

Lemma writer_scopes_count_and_close_witness :
  let opened := Nat.iter 3 __enter__ (@__init__ nat 0) in
  writers opened = Z.of_nat 3
  /\ status opened = Status.Started
  /\ writers (Nat.iter 3 __exit__ opened) = 0
  /\ status (Nat.iter 3 __exit__ opened) = Status.Stopped
  /\ (forall j : nat, (j < 3)%nat ->
        let before := Nat.iter j __exit__ opened in
        writers before = Z.of_nat 3 - Z.of_nat j
        /\ status before = Status.Started
        /\ writers (__exit__ before) = writers before - 1
        /\ (status (__exit__ before) = Status.Stopped
            <-> writers (__exit__ before) = 0)).
Proof.
  apply (writer_scopes_count_and_close nat (__init__ 0) 3);
    [discriminate | reflexivity | lia].
Defined.

(** C9.  [put_nowait] makes the check that [put] makes, and that check
    reads the status, not the cancel flag.  On a queue that has been
    canceled and on which a writer scope was entered afterwards, the
    flag is set and the status is [Started]: [put_nowait] raises no
    [Canceled] and stores the item, as [put] does.  Leaving the scope
    sets [Stopped], and [put_nowait] stores again. *)
Theorem canceled_queue_put_nowait_stores_after_writer_scope :
  forall (item : Type) (x y : item),
    let w := world (__enter__ (cancel (@__init__ item 0))) 0 in
    let w' := with_self (__exit__ (set_queue [x] (self w))) w in
    canceled (self w) = true
    /\ __bool__ (self w) = true
    /\ status (self w) = Status.Started
    /\ put_nowait x w = Return tt (with_self (set_queue [x] (self w)) w)
    /\ put_nowait x w = put x false None w
    /\ canceled (self w') = true
    /\ status (self w') = Status.Stopped
    /\ put_nowait y w' = Return tt (with_self (set_queue [x; y] (self w')) w').
Proof. intros item x y w w'. repeat split. Qed.

(** While the status is [Canceled], [put_nowait(item)], which is
    [put(item, block=False)] of the subclass, raises [Canceled]; on a
    queue whose status is not [Canceled] and that is bounded and at
    capacity, it raises [queue.Full]; in both cases the instance, and
    so what it stores, is as before. *)
Theorem put_nowait_checks_like_put :
  forall (item : Type) (x : item) (w : World item),
    status (self w) = Status.Canceled
    \/ (0 < maxsize (self w)
        /\ maxsize (self w) <= Z.of_nat (length (queue (self w)))) ->
    put_nowait x w = put x false None w
    /\ exists w',
        put_nowait x w
        = Raise (if Status.eqb (status (self w)) Status.Canceled
                 then Canceled else Full) w'
        /\ self w' = self w
        /\ clock w' = clock w.
Proof.
  intros item x w H. split; [reflexivity|].
  unfold put_nowait, Queue_put_nowait, put.
  destruct (status_eqb_spec (status (self w)) Status.Canceled) as [Hc|Hc].
  - exists w. now repeat split.
  - destruct H as [H|[Hm Hfull]]; [contradiction|].
    exists (if Status.eqb (status (self w)) Status.Unstarted
            then warn UNSTARTED_WARNING w else w).
    unfold Queue_put.
    destruct (Status.eqb (status (self w)) Status.Unstarted); simpl;
      (destruct (Z.ltb_spec 0 (maxsize (self w))); [|lia]);
      (destruct (Z.geb_spec (Z.of_nat (length (queue (self w))))
                            (maxsize (self w))); [|lia]);
      now repeat split.
Qed.

Lemma put_nowait_checks_like_put_witness :
  (put_nowait 5%nat (world (cancel (__init__ 0)) 0)
   = put 5%nat false None (world (cancel (__init__ 0)) 0)
   /\ exists w',
       put_nowait 5%nat (world (cancel (__init__ 0)) 0) = Raise Canceled w'
       /\ self w' = cancel (__init__ 0)
       /\ clock w' = 0)
  /\ (put_nowait 5%nat
        (world (set_queue [1%nat] (__enter__ (__init__ 1))) 0)
      = put 5%nat false None
          (world (set_queue [1%nat] (__enter__ (__init__ 1))) 0)
      /\ exists w',
          put_nowait 5%nat
            (world (set_queue [1%nat] (__enter__ (__init__ 1))) 0)
          = Raise Full w'
          /\ self w' = set_queue [1%nat] (__enter__ (__init__ 1))
          /\ clock w' = 0).
Proof.
  split.
  - apply (put_nowait_checks_like_put nat 5%nat
             (world (cancel (__init__ 0)) 0)).
    left. reflexivity.
  - apply (put_nowait_checks_like_put nat 5%nat
             (world (set_queue [1%nat] (__enter__ (__init__ 1))) 0)).
    right. simpl. lia.
Defined.

(** C10.  [get(block=True, timeout=0)] computes no deadline, since a
    zero timeout is false.  On an empty queue that is neither [Stopped]
    nor [Canceled], and as long as the other threads leave it so, the
    call does not come back: after any number [n] of passes it is still
    polling, having slept [n] times [SPIN_TIME], and it has raised
    neither [queue.Empty] nor anything else. *)
Theorem get_zero_timeout_blocks_forever :
  forall (item : Type) (others : nat -> Iterqueue item -> Iterqueue item)
         (n : nat) (w : World item),
    never_wake others ->
    waiting (self w) ->
    deadline_of (clock w) true (Some 0) = None
    /\ exists w',
        get others n true (Some 0) w = Hang w'
        /\ waiting (self w')
        /\ clock w' = clock w + Z.of_nat n * SPIN_TIME
        /\ naps w' = (naps w + n)%nat.
Proof.
  intros item others n w Hothers Hw. split; [reflexivity|].
  unfold get. simpl deadline_of.
  revert w Hw. induction n as [|n IH]; intros w Hw.
  - exists w. repeat split; try apply Hw; simpl; lia.
  - rewrite get_loop_forever by easy.
    destruct (IH (sleep others SPIN_TIME w)) as (w' & Hget & Hw' & Hclock & Hnaps).
    + apply Hothers, Hw.
    + exists w'. split; [exact Hget|]. split; [exact Hw'|].
      simpl in Hclock, Hnaps. split; lia.
Qed.

Lemma get_zero_timeout_blocks_forever_witness :
  deadline_of 0 true (Some 0) = None
  /\ exists w',
      get idle 7 true (Some 0) (world (__enter__ (@__init__ nat 0)) 0)
      = Hang w'
      /\ waiting (self w')
      /\ clock w' = 0 + Z.of_nat 7 * SPIN_TIME
      /\ naps w' = (0 + 7)%nat.
Proof.
  apply (get_zero_timeout_blocks_forever nat idle 7
           (world (__enter__ (__init__ 0)) 0)).
  - intros k q Hq. exact Hq.
  - repeat split; simpl; discriminate.
Defined.

(** * Further properties of the code *)

Section Calls.

Context {item : Type}.
Variable others : nat -> Iterqueue item -> Iterqueue item.

Implicit Types (q : Iterqueue item) (w : World item) (x : item).

(** A non-blocking pass: what it returns is the oldest item, and it
    leaves everything but the storage alone. *)
Lemma get_loop_nonblocking_pass fuel w :
  match get_loop others (S fuel) false None w with
  | Return x w' =>
      queue (self w) = x :: queue (self w')
      /\ w' = with_self (set_queue (queue (self w')) (self w)) w
  | Raise e w' => w' = w
  | Hang _ => False
  end.
Proof.
  simpl.
  destruct (Status.eqb (status (self w)) Status.Canceled); [reflexivity|].
  unfold Queue_get. destruct (queue (self w)) as [|x rest] eqn:Hq; simpl.
  - now destruct (Status.eqb (status (self w)) Status.Stopped).
  - now split.
Qed.

(** [put] with room and no timeout stores at the tail. *)
Lemma put_room x block w :
  status (self w) <> Status.Canceled ->
  room (self w) [x] ->
  put x block None w
  = Return tt
      (with_self (set_queue (queue (self w) ++ [x]) (self w))
         (if Status.eqb (status (self w)) Status.Unstarted
          then warn UNSTARTED_WARNING w else w)).
Proof.
  intros Hc Hroom. unfold put.
  destruct (status_eqb_spec (status (self w)) Status.Canceled); [easy|].
  assert (Hfull : 0 < maxsize (self w) ->
            (Z.of_nat (length (queue (self w))) >=? maxsize (self w)) = false).
  { intros Hm. destruct (Z.geb_spec (Z.of_nat (length (queue (self w))))
                                    (maxsize (self w))); [|reflexivity].
    destruct Hroom as [Hr|Hr]; simpl in Hr; lia. }
  unfold Queue_put.
  destruct (Status.eqb (status (self w)) Status.Unstarted); simpl;
    (destruct (Z.ltb_spec 0 (maxsize (self w))); [|reflexivity]);
    rewrite Hfull by assumption; now destruct block.
Qed.

End Calls.

(** X1.  Right after [cancel()], in whatever state the queue was,
    [get], [get_nowait], [next], [put] and [put_nowait] raise
    [Canceled], for any [block] and [timeout], and leave the world as
    [cancel] left it: what was buffered stays buffered and is not
    handed out. *)
Theorem cancel_refuses_reads_and_writes :
  forall (item : Type) (others : nat -> Iterqueue item -> Iterqueue item)
         (fuel : nat) (block : bool) (timeout : option Z) (x : item)
         (w : World item),
    let w' := with_self (cancel (self w)) w in
    get others (S fuel) block timeout w' = Raise Canceled w'
    /\ get_nowait others (S fuel) w' = Raise Canceled w'
    /\ __next__ others (S fuel) w' = Raise Canceled w'
    /\ put x block timeout w' = Raise Canceled w'
    /\ put_nowait x w' = Raise Canceled w'
    /\ queue (self w') = queue (self w)
    /\ __bool__ (self w') = true.
Proof.
  intros item others fuel block timeout x w w'.
  destruct (canceled_status_refuses others fuel block timeout x w')
    as (Hget & Hnowait & Hnext & Hput & Hputnw); [reflexivity|].
  now repeat split.
Qed.

(** X2.  [put] changes nothing of the instance but the storage: when it
    returns, the item is at the tail and status, writers, cancel flag
    and bound are as before; when it raises or waits, the instance is
    as before.  A [put] on a [Stopped] queue does not reopen it. *)
Theorem put_touches_only_storage :
  forall (item : Type) (x : item) (block : bool) (timeout : option Z)
         (w : World item),
    match put x block timeout w with
    | Return _ w' => self w' = set_queue (queue (self w) ++ [x]) (self w)
    | Raise _ w' => self w' = self w
    | Hang w' => self w' = self w
    end.
Proof.
  intros item x block timeout w. unfold put.
  destruct (Status.eqb (status (self w)) Status.Canceled); [reflexivity|].
  unfold Queue_put.
  destruct (Status.eqb (status (self w)) Status.Unstarted); simpl;
    destruct (0 <? maxsize (self w));
    destruct block; simpl;
    destruct (Z.of_nat (length (queue (self w))) >=? maxsize (self w));
    try reflexivity;
    destruct timeout as [t|]; try reflexivity;
    destruct (t <? 0); reflexivity.
Qed.

(** X3.  [get(block=False)], with any timeout, comes back in its first
    pass in every state: it never sleeps and never lets time pass.
    When it returns, the item is the oldest one and only the storage
    has changed; when it raises, nothing has changed. *)
Theorem get_nonblocking_never_sleeps :
  forall (item : Type) (others : nat -> Iterqueue item -> Iterqueue item)
         (fuel : nat) (timeout : option Z) (w : World item),
    match get others (S fuel) false timeout w with
    | Return x w' =>
        queue (self w) = x :: queue (self w')
        /\ w' = with_self (set_queue (queue (self w')) (self w)) w
    | Raise _ w' => w' = w
    | Hang _ => False
    end.
Proof.
  intros item others fuel timeout w. unfold get.
  replace (deadline_of (clock w) false timeout) with (@None Z)
    by now destruct timeout.
  apply get_loop_nonblocking_pass.
Qed.

(** X4.  [get] raises [Canceled], [StopIteration] or [queue.Empty] and
    nothing else, in any state and with any arguments.  When the other
    threads touch the queue only while the caller sleeps, and not
    between its dequeue and its test of the status, each of the three
    tells the state the call leaves: [Canceled], and the status is
    [Canceled]; [StopIteration], and the queue is [Stopped] and empty;
    [queue.Empty], and the queue is empty and neither [Stopped] nor
    [Canceled].  Under that schedule it does not raise while an item is
    buffered unless the status is [Canceled]. *)
Theorem get_failure_reasons :
  forall (item : Type) (others : nat -> Iterqueue item -> Iterqueue item)
         (fuel : nat) (block : bool) (timeout : option Z)
         (w w' : World item) (e : exn),
    get others fuel block timeout w = Raise e w' ->
    (e = Canceled /\ status (self w') = Status.Canceled)
    \/ (e = StopIteration /\ status (self w') = Status.Stopped
        /\ queue (self w') = [])
    \/ (e = Empty /\ queue (self w') = []
        /\ status (self w') <> Status.Stopped
        /\ status (self w') <> Status.Canceled).
Proof.
  intros item others fuel block timeout w w' e H.
  exact (get_loop_raise others _ _ _ _ _ _ H).
Qed.

Lemma get_failure_reasons_witness :
  (Empty = Canceled
   /\ status (self (mkWorld (@__init__ nat 0) 100 2 [])) = Status.Canceled)
  \/ (Empty = StopIteration
      /\ status (self (mkWorld (@__init__ nat 0) 100 2 [])) = Status.Stopped
      /\ queue (self (mkWorld (@__init__ nat 0) 100 2 [])) = [])
  \/ (Empty = Empty
      /\ queue (self (mkWorld (@__init__ nat 0) 100 2 [])) = []
      /\ status (self (mkWorld (@__init__ nat 0) 100 2 []))
         <> Status.Stopped
      /\ status (self (mkWorld (@__init__ nat 0) 100 2 []))
         <> Status.Canceled).
Proof.
  apply (get_failure_reasons nat idle 5 true (Some 80)
           (world (__init__ 0) 0)).
  reflexivity.
Defined.

(** X5.  [get] does not validate its timeout: with a negative one (and
    a deadline that is not the number 0) a blocking [get] does exactly
    what [get(block=False)] does, in its first pass: the oldest item,
    or [Canceled], [StopIteration] or [queue.Empty], and no
    [ValueError]. *)
Theorem get_negative_timeout_is_nonblocking :
  forall (item : Type) (others : nat -> Iterqueue item -> Iterqueue item)
         (fuel : nat) (t : Z) (w : World item),
    t < 0 ->
    clock w + t <> 0 ->
    get others (S fuel) true (Some t) w = get others (S fuel) false None w.
Proof.
  intros item others fuel t w Ht Hd. unfold get, deadline_of, truthy.
  destruct (Z.eqb_spec t 0) as [?|_]; [lia|]. simpl.
  destruct (Status.eqb (status (self w)) Status.Canceled); [reflexivity|].
  unfold Queue_get. destruct (queue (self w)); [|reflexivity]. simpl.
  destruct (Status.eqb (status (self w)) Status.Stopped); [reflexivity|].
  destruct (Z.eqb_spec (clock w + t) 0) as [?|_]; [contradiction|].
  destruct (Z.ltb_spec (clock w) (clock w + t)); [lia|reflexivity].
Qed.

Lemma get_negative_timeout_is_nonblocking_witness :
  get idle 1 true (Some (-5)) (world (__enter__ (@__init__ nat 0)) 1000)
  = get idle 1 false None (world (__enter__ (@__init__ nat 0)) 1000).
Proof.
  apply (get_negative_timeout_is_nonblocking nat idle 0 (-5)); simpl; lia.
Defined.

Section Waiting.

Context {item : Type}.

Implicit Types (q : Iterqueue item) (w : World item) (x : item).

Lemma later_0 w : later 0 (self w) w = w.
Proof.
  destruct w as [q t n ws]. unfold later. simpl.
  now rewrite Z.add_0_r, Nat.add_0_r.
Qed.

(** A [get] that waits for ever, while the other threads do one thing
    [f] during its [k0]-th coming sleep and nothing before: it sleeps
    [k0 + 1] times and goes on in the world [f] has made. *)
Lemma get_loop_wakes f d n : forall k0 w,
  truthy d = false ->
  waiting (self w) ->
  get_loop (at_nap (naps w + k0) f) (S k0 + n) true d w
  = get_loop (at_nap (naps w + k0) f) n true d
             (later (S k0) (f (self w)) w).
Proof.
  induction k0 as [|k0 IH]; intros w Hd Hw.
  - change (1 + n)%nat with (S n). rewrite get_loop_forever by assumption.
    f_equal. unfold sleep, later, at_nap.
    rewrite Nat.add_0_r, Nat.eqb_refl. f_equal; unfold SPIN_TIME; lia.
  - change (S (S k0) + n)%nat with (S (S k0 + n)).
    rewrite get_loop_forever by assumption.
    assert (Hsame : sleep (at_nap (naps w + S k0) f) SPIN_TIME w
                    = later 1 (self w) w).
    { unfold sleep, later, at_nap.
      destruct (Nat.eqb_spec (naps w) (naps w + S k0)); [lia|].
      f_equal; unfold SPIN_TIME; lia. }
    rewrite Hsame.
    replace (naps w + S k0)%nat with (naps (later 1 (self w) w) + k0)%nat
      by (simpl; lia).
    rewrite IH by assumption.
    f_equal. unfold later. simpl. f_equal; unfold SPIN_TIME; lia.
Qed.

(** A [get] that waits for ever on a queue that stays empty and open
    is still polling after any number of passes. *)
Lemma get_loop_forever_hangs others d : forall n w,
  never_wake others ->
  truthy d = false ->
  waiting (self w) ->
  exists w',
    get_loop others n true d w = Hang w'
    /\ waiting (self w')
    /\ warned w' = warned w.
Proof.
  induction n as [|n IH]; intros w Hothers Hd Hw.
  - exists w. split; [reflexivity|]. split; [exact Hw|reflexivity].
  - rewrite get_loop_forever by assumption.
    destruct (IH (sleep others SPIN_TIME w) Hothers Hd)
      as (w' & Hget & Hw' & Hwarned).
    + apply Hothers, Hw.
    + exists w'. split; [exact Hget|]. split; [exact Hw'|exact Hwarned].
Qed.

End Waiting.

(** X7.  On a queue whose status is not [Canceled] and that has room,
    [put] without a timeout, blocking or not, and [put_nowait] store
    the item at the tail and return, whatever the status: also on a
    [Stopped] queue and on an [Unstarted] one.  They warn exactly when
    the status is [Unstarted], and leave status and clock alone. *)
Theorem put_stores_and_warns_only_when_Unstarted :
  forall (item : Type) (x : item) (block : bool) (w : World item),
    status (self w) <> Status.Canceled ->
    room (self w) [x] ->
    exists w',
      put x block None w = Return tt w'
      /\ put_nowait x w = Return tt w'
      /\ queue (self w') = queue (self w) ++ [x]
      /\ status (self w') = status (self w)
      /\ clock w' = clock w
      /\ warned w'
         = warned w
           ++ (if Status.eqb (status (self w)) Status.Unstarted
               then [UNSTARTED_WARNING] else []).
Proof.
  intros item x block w Hc Hroom.
  eexists. split; [apply put_room; assumption|].
  split; [apply (put_room x false w); assumption|].
  destruct (Status.eqb (status (self w)) Status.Unstarted); simpl;
    repeat split; now rewrite ?app_nil_r.
Qed.

Lemma put_stores_and_warns_only_when_Unstarted_witness :
  exists w',
    put 4%nat true None (world (set_queue [1%nat] (__init__ 2)) 0)
    = Return tt w'
    /\ put_nowait 4%nat (world (set_queue [1%nat] (__init__ 2)) 0)
       = Return tt w'
    /\ queue (self w') = [1%nat] ++ [4%nat]
    /\ status (self w') = Status.Unstarted
    /\ clock w' = 0
    /\ warned w' = [] ++ [UNSTARTED_WARNING].
Proof.
  apply (put_stores_and_warns_only_when_Unstarted nat 4%nat true
           (world (set_queue [1%nat] (__init__ 2)) 0)).
  - discriminate.
  - right. simpl. lia.
Defined.

(** X8.  Round trip.  On an empty queue whose status is not
    [Canceled], bounded or not, a [put] of [x] followed by a [get],
    each blocking or not and the [get] with any timeout, returns [x];
    after it the queue is empty again, and status, writers, cancel
    flag and bound are what they were before the [put]; the [get] has
    not slept. *)
Theorem put_then_get_round_trip :
  forall (item : Type) (others : nat -> Iterqueue item -> Iterqueue item)
         (fuel : nat) (x : item) (pblock gblock : bool)
         (timeout : option Z) (w : World item),
    queue (self w) = [] ->
    status (self w) <> Status.Canceled ->
    exists w1 w2,
      put x pblock None w = Return tt w1
      /\ queue (self w1) = [x]
      /\ get others (S fuel) gblock timeout w1 = Return x w2
      /\ queue (self w2) = []
      /\ status (self w2) = status (self w)
      /\ writers (self w2) = writers (self w)
      /\ canceled (self w2) = canceled (self w)
      /\ maxsize (self w2) = maxsize (self w)
      /\ clock w2 = clock w
      /\ naps w2 = naps w.
Proof.
  intros item others fuel x pblock gblock timeout w Hq Hc.
  assert (Hroom : room (self w) [x]).
  { unfold room. rewrite Hq. simpl.
    destruct (Z.le_gt_cases (maxsize (self w)) 0); [now left|right; lia]. }
  eexists. eexists. split; [apply put_room; assumption|].
  split.
  { destruct (Status.eqb (status (self w)) Status.Unstarted); simpl;
      now rewrite Hq. }
  split.
  - unfold get. apply get_loop_head.
    + now destruct (Status.eqb (status (self w)) Status.Unstarted).
    + destruct (Status.eqb (status (self w)) Status.Unstarted); simpl;
        rewrite Hq; reflexivity.
  - destruct (Status.eqb (status (self w)) Status.Unstarted); simpl;
      now repeat split.
Qed.

Lemma put_then_get_round_trip_witness :
  exists w1 w2,
    put 9%nat true None (world (__enter__ (__init__ 1)) 0) = Return tt w1
    /\ queue (self w1) = [9%nat]
    /\ get idle 1 true (Some 500) w1 = Return 9%nat w2
    /\ queue (self w2) = []
    /\ status (self w2) = status (self (world (__enter__ (@__init__ nat 1)) 0))
    /\ writers (self w2)
       = writers (self (world (__enter__ (@__init__ nat 1)) 0))
    /\ canceled (self w2)
       = canceled (self (world (__enter__ (@__init__ nat 1)) 0))
    /\ maxsize (self w2)
       = maxsize (self (world (__enter__ (@__init__ nat 1)) 0))
    /\ clock w2 = clock (world (__enter__ (@__init__ nat 1)) 0)
    /\ naps w2 = naps (world (__enter__ (@__init__ nat 1)) 0).
Proof.
  apply (put_then_get_round_trip nat idle 0 9%nat true true (Some 500)
           (world (__enter__ (__init__ 1)) 0)).
  - reflexivity.
  - discriminate.
Defined.

(** X9.  A writer scope opened and left while another one is open
    leaves the instance exactly as it was: same count, still
    [Started]. *)
Theorem nested_scope_is_transparent :
  forall (item : Type) (q : Iterqueue item),
    1 <= writers q ->
    status q = Status.Started ->
    __exit__ (__enter__ q) = q.
Proof.
  intros item [s n c m l] Hn Hs. simpl in *. subst s.
  unfold __exit__, __enter__. simpl.
  destruct (Z.ltb_spec (n + 1 - 1) 1); [lia|].
  unfold set_writers. simpl. f_equal. lia.
Qed.

Lemma nested_scope_is_transparent_witness :
  __exit__ (__enter__ (__enter__ (@__init__ nat 0)))
  = __enter__ (@__init__ nat 0).
Proof.
  apply (nested_scope_is_transparent nat (__enter__ (__init__ 0)));
    [simpl; lia | reflexivity].
Defined.

(** X10.  A reader blocked in [get()] on an empty, open queue sees a
    [cancel()] of another thread at its next pass: if the cancel comes
    during its sleep number [k0] (from 0), the call has slept [k0 + 1]
    times and raises [Canceled], within one [SPIN_TIME] of the
    cancel. *)
Theorem blocked_get_sees_cancel :
  forall (item : Type) (k0 extra : nat) (w : World item),
    waiting (self w) ->
    get (cancel_at (naps w + k0)) (S k0 + S extra) true None w
    = Raise Canceled (later (S k0) (cancel (self w)) w).
Proof.
  intros item k0 extra w Hw. unfold get. simpl deadline_of.
  change (cancel_at (naps w + k0)) with (at_nap (naps w + k0) (@cancel item)).
  rewrite get_loop_wakes by easy.
  now apply get_loop_canceled.
Qed.

Lemma blocked_get_sees_cancel_witness :
  get (cancel_at (0 + 4)) (S 4 + S 0) true None
      (world (__enter__ (@__init__ nat 0)) 0)
  = Raise Canceled
      (later (S 4) (cancel (__enter__ (__init__ 0)))
         (world (__enter__ (__init__ 0)) 0)).
Proof.
  apply (blocked_get_sees_cancel nat 4 0 (world (__enter__ (__init__ 0)) 0)).
  repeat split; simpl; discriminate.
Defined.

(** X11.  A reader blocked in [get()] on an empty queue with one writer
    scope open sees the scope being left: the call raises
    [StopIteration] at its next pass, with the queue [Stopped]. *)
Theorem blocked_get_sees_close :
  forall (item : Type) (k0 extra : nat) (w : World item),
    waiting (self w) ->
    writers (self w) = 1 ->
    get (at_nap (naps w + k0) __exit__) (S k0 + S extra) true None w
    = Raise StopIteration (later (S k0) (__exit__ (self w)) w)
    /\ status (__exit__ (self w)) = Status.Stopped.
Proof.
  intros item k0 extra w Hw Hwr.
  assert (Hs : status (__exit__ (self w)) = Status.Stopped)
    by now rewrite exit_status, Hwr.
  split; [|exact Hs].
  unfold get. simpl deadline_of.
  rewrite get_loop_wakes by easy.
  apply get_loop_stopped; simpl; [exact Hs|].
  rewrite exit_queue. apply Hw.
Qed.

Lemma blocked_get_sees_close_witness :
  get (at_nap (0 + 2) __exit__) (S 2 + S 0) true None
      (world (__enter__ (@__init__ nat 0)) 0)
  = Raise StopIteration
      (later (S 2) (__exit__ (__enter__ (__init__ 0)))
         (world (__enter__ (__init__ 0)) 0))
  /\ status (__exit__ (__enter__ (@__init__ nat 0))) = Status.Stopped.
Proof.
  apply (blocked_get_sees_close nat 2 0 (world (__enter__ (__init__ 0)) 0)).
  - repeat split; simpl; discriminate.
  - reflexivity.
Defined.

(** X12.  A reader blocked in [get()] on an empty, open queue gets the
    item that another thread puts: if the [put] comes during its sleep
    number [k0] (from 0), the call has slept [k0 + 1] times and returns
    the item at its next pass; the queue is empty again, and status,
    writers and cancel flag are what they were. *)
Theorem blocked_get_receives_put :
  forall (item : Type) (x : item) (k0 extra : nat) (w : World item),
    waiting (self w) ->
    exists w',
      get (at_nap (naps w + k0) (other_put x)) (S k0 + S extra) true None w
      = Return x w'
      /\ queue (self w') = []
      /\ status (self w') = status (self w)
      /\ writers (self w') = writers (self w)
      /\ canceled (self w') = canceled (self w)
      /\ naps w' = (naps w + S k0)%nat
      /\ clock w' = clock w + Z.of_nat (S k0) * SPIN_TIME.
Proof.
  intros item x k0 extra w Hw. unfold get. simpl deadline_of.
  rewrite get_loop_wakes by easy.
  destruct Hw as (Hq & Hs & Hc).
  assert (Hput : other_put x (self w) = set_queue [x] (self w)).
  { unfold other_put, put_nowait, Queue_put_nowait.
    rewrite put_room; simpl.
    - rewrite Hq.
      now destruct (Status.eqb (status (self w)) Status.Unstarted).
    - exact Hc.
    - unfold room. simpl. rewrite Hq. simpl.
      destruct (Z.le_gt_cases (maxsize (self w)) 0); [now left|right; lia]. }
  rewrite Hput.
  rewrite (get_loop_head _ extra true None _ x []); [| exact Hc | reflexivity].
  eexists. split; [reflexivity|]. now repeat split.
Qed.

Lemma blocked_get_receives_put_witness :
  exists w',
    get (at_nap (0 + 1) (other_put 8%nat)) (S 1 + S 0) true None
        (world (__enter__ (@__init__ nat 0)) 0)
    = Return 8%nat w'
    /\ queue (self w') = []
    /\ status (self w') = status (self (world (__enter__ (@__init__ nat 0)) 0))
    /\ writers (self w')
       = writers (self (world (__enter__ (@__init__ nat 0)) 0))
    /\ canceled (self w')
       = canceled (self (world (__enter__ (@__init__ nat 0)) 0))
    /\ naps w' = (0 + S 1)%nat
    /\ clock w' = 0 + Z.of_nat (S 1) * SPIN_TIME.
Proof.
  apply (blocked_get_receives_put nat 8%nat 1 0
           (world (__enter__ (__init__ 0)) 0)).
  repeat split; simpl; discriminate.
Defined.

Section MoreLoops.

Context {item : Type}.
Variable others : nat -> Iterqueue item -> Iterqueue item.

(** A loop over a queue that is open: it goes through what is buffered
    and is then left polling. *)
Lemma for_each_queue_open fuel extra : forall xs w acc,
  never_wake others ->
  status (self w) <> Status.Stopped ->
  status (self w) <> Status.Canceled ->
  queue (self w) = xs ->
  exists w',
    for_each (queue_next others (S fuel)) (S (length xs) + extra) tt w acc
    = Running (acc ++ xs) w'
    /\ waiting (self w')
    /\ warned w' = warned w.
Proof.
  induction xs as [|x xs IH]; intros w acc Hothers Hs Hc Hq.
  - change (S (length (A:=item) []) + extra)%nat with (S extra).
    rewrite for_each_step. unfold queue_next, __next__, get.
    simpl deadline_of.
    destruct (get_loop_forever_hangs others None (S fuel) w)
      as (w' & Hget & Hw' & Hwarned); try easy.
    exists w'. rewrite Hget, app_nil_r.
    split; [reflexivity|]. split; [exact Hw'|exact Hwarned].
  - change (S (length (x :: xs)) + extra)%nat
      with (S (S (length xs) + extra)).
    rewrite for_each_step.
    assert (Hnext : queue_next others (S fuel) tt w
                    = (tt, Return x (with_self (set_queue xs (self w)) w))).
    { unfold queue_next, __next__, get.
      now rewrite (get_loop_head others fuel _ _ w x xs Hc Hq). }
    rewrite Hnext.
    destruct (IH (with_self (set_queue xs (self w)) w) (acc ++ [x]))
      as (w' & Hloop & Hw' & Hwarned); try easy.
    exists w'. rewrite Hloop, <- app_assoc.
    split; [reflexivity|]. split; [exact Hw'|exact Hwarned].
Qed.

End MoreLoops.

(** X13.  A loop over a queue that is not [Stopped] and not [Canceled],
    and that the other threads leave so, collects the buffered items in
    order and then neither ends nor raises: however many rounds it is
    given, it is still polling, on a queue it has emptied. *)
Theorem loop_on_open_queue_keeps_polling :
  forall (item : Type) (others : nat -> Iterqueue item -> Iterqueue item)
         (fuel extra : nat) (w : World item),
    never_wake others ->
    status (self w) <> Status.Stopped ->
    status (self w) <> Status.Canceled ->
    exists w',
      list_of_queue others (S (length (queue (self w))) + extra) (S fuel) w
      = Running (queue (self w)) w'
      /\ waiting (self w').
Proof.
  intros item others fuel extra w Hothers Hs Hc.
  destruct (for_each_queue_open others fuel extra (queue (self w)) w [])
    as (w' & Hloop & Hw' & _); try easy.
  exists w'. now split.
Qed.

Lemma loop_on_open_queue_keeps_polling_witness :
  exists w',
    list_of_queue idle
      (S (length (queue (self (world (set_queue [1; 2]%nat
                                        (__enter__ (__init__ 0))) 0))))
       + 3) (S 4)
      (world (set_queue [1; 2]%nat (__enter__ (__init__ 0))) 0)
    = Running
        (queue (self (world (set_queue [1; 2]%nat
                               (__enter__ (__init__ 0))) 0))) w'
    /\ waiting (self w').
Proof.
  apply (loop_on_open_queue_keeps_polling nat idle 4 3
           (world (set_queue [1; 2]%nat (__enter__ (__init__ 0))) 0)).
  - intros k q Hq. exact Hq.
  - discriminate.
  - discriminate.
Defined.

(** X14.  A reader looping over an empty, open queue is released by a
    [cancel()] of another thread: the loop ends at the reader's next
    pass, normally and with nothing collected, and the queue is left
    canceled. *)
Theorem reader_loop_ends_on_cancel :
  forall (item : Type) (k0 extra rounds : nat) (w : World item),
    waiting (self w) ->
    list_of_queue (cancel_at (naps w + k0)) (S rounds) (S k0 + S extra) w
    = Ended [] (later (S k0) (cancel (self w)) w).
Proof.
  intros item k0 extra rounds w Hw.
  unfold list_of_queue. rewrite for_each_step.
  unfold queue_next, __next__, get. simpl deadline_of.
  change (cancel_at (naps w + k0)) with (at_nap (naps w + k0) (@cancel item)).
  rewrite get_loop_wakes by easy.
  now rewrite get_loop_canceled.
Qed.

Lemma reader_loop_ends_on_cancel_witness :
  list_of_queue (cancel_at (0 + 3)) (S 9) (S 3 + S 0)
                (world (__enter__ (@__init__ nat 0)) 0)
  = Ended [] (later (S 3) (cancel (__enter__ (__init__ 0)))
                (world (__enter__ (__init__ 0)) 0)).
Proof.
  apply (reader_loop_ends_on_cancel nat 3 0 9
           (world (__enter__ (__init__ 0)) 0)).
  repeat split; simpl; discriminate.
Defined.

(** X15.  On a [Stopped] queue, a loop over [iter_nowait()] and a loop
    over the queue itself do the same: both collect the buffered items
    in order, end normally and leave the queue empty. *)
Theorem iter_nowait_agrees_with_loop_when_Stopped :
  forall (item : Type) (others : nat -> Iterqueue item -> Iterqueue item)
         (fuel extra : nat) (w : World item),
    status (self w) = Status.Stopped ->
    let rounds := (S (length (queue (self w))) + extra)%nat in
    list_of_iter_nowait others rounds (S fuel) w
    = list_of_queue others rounds (S fuel) w
    /\ list_of_queue others rounds (S fuel) w
       = Ended (queue (self w)) (emptied w).
Proof.
  intros item others fuel extra w Hs rounds.
  unfold list_of_iter_nowait, list_of_queue, iter_nowait, rounds.
  rewrite for_each_queue_stopped by easy.
  rewrite for_each_generator_drain; try easy; [|congruence].
  now rewrite Hs.
Qed.

Lemma iter_nowait_agrees_with_loop_when_Stopped_witness :
  let w := world (set_queue [1; 2]%nat (__exit__ (__enter__ (__init__ 0)))) 0 in
  let rounds := (S (length (queue (self w))) + 1)%nat in
  list_of_iter_nowait idle rounds (S 0) w = list_of_queue idle rounds (S 0) w
  /\ list_of_queue idle rounds (S 0) w = Ended (queue (self w)) (emptied w).
Proof.
  apply (iter_nowait_agrees_with_loop_when_Stopped nat idle 0 1
           (world (set_queue [1; 2]%nat (__exit__ (__enter__ (__init__ 0)))) 0)).
  reflexivity.
Defined.

Section Invariants.

Context {item : Type}.
Variable others : nat -> Iterqueue item -> Iterqueue item.

(** A property of the instance that does not depend on the storage. *)
Variable P : Iterqueue item -> Prop.
Hypothesis P_storage : forall q l, P q -> P (set_queue l q).
Hypothesis P_others : forall k q, P q -> P (others k q).

Lemma get_loop_keeps fuel block deadline : forall w,
  P (self w) ->
  P (self (world_of (get_loop others fuel block deadline w))).
Proof.
  induction fuel as [|fuel IH]; intros w HP; simpl; [exact HP|].
  destruct (Status.eqb (status (self w)) Status.Canceled); [exact HP|].
  unfold Queue_get. destruct (queue (self w)); simpl.
  - destruct (Status.eqb (status (self w)) Status.Stopped); [exact HP|].
    destruct (truthy deadline && _);
      [apply IH; simpl; now apply P_others|].
    destruct (block && _); [apply IH; simpl; now apply P_others|exact HP].
  - now apply P_storage.
Qed.

Lemma put_keeps x block timeout w :
  P (self w) -> P (self (world_of (put x block timeout w))).
Proof.
  intros HP. unfold put.
  destruct (Status.eqb (status (self w)) Status.Canceled); [exact HP|].
  unfold Queue_put.
  destruct (Status.eqb (status (self w)) Status.Unstarted); simpl;
    destruct (0 <? maxsize (self w));
    destruct block; simpl;
    destruct (Z.of_nat (length (queue (self w))) >=? maxsize (self w));
    try (now apply P_storage); try exact HP;
    destruct timeout as [t|]; try (now apply P_storage); try exact HP;
    destruct (t <? 0); try (now apply P_storage); exact HP.
Qed.

(** A property that the storage and the other threads cannot change,
    and that [cancel], [__enter__] and [__exit__] keep wherever the
    call is one of them, holds after the call. *)
Lemma after_call_keeps fuel c w :
  (c = call_cancel -> forall q, P q -> P (cancel q)) ->
  (c = call_enter -> forall q, P q -> P (__enter__ q)) ->
  (c = call_exit -> forall q, P q -> P (__exit__ q)) ->
  P (self w) ->
  P (self (after_call others fuel c w)).
Proof.
  intros Hcancel Henter Hexit HP.
  destruct c; simpl.
  - now apply Hcancel.
  - now apply Henter.
  - now apply Hexit.
  - now apply put_keeps.
  - now apply put_keeps.
  - now apply get_loop_keeps.
  - now apply get_loop_keeps.
  - now apply get_loop_keeps.
Qed.

Lemma after_calls_keeps fuel cs : forall w,
  (forall q, P q -> P (cancel q)) ->
  (forall q, P q -> P (__enter__ q)) ->
  (forall q, P q -> P (__exit__ q)) ->
  P (self w) ->
  P (self (after_calls others fuel cs w)).
Proof.
  induction cs as [|c cs IH]; intros w Hcancel Henter Hexit HP; [exact HP|].
  simpl. apply IH; try assumption.
  apply after_call_keeps; auto.
Qed.

End Invariants.

(** X16.  The cancel flag, which is the truth value of the queue, is
    set by [cancel()] and by nothing else, and nothing clears it: after
    any sequence of calls of the interface, with the other threads not
    touching the flag, it is set exactly when it was set before or one
    of the calls was [cancel()].  What is buffered plays no part. *)
Theorem bool_is_set_by_cancel_only :
  forall (item : Type) (others : nat -> Iterqueue item -> Iterqueue item)
         (fuel : nat) (cs : list (call item)) (w : World item),
    (forall k q, canceled (others k q) = canceled q) ->
    __bool__ (self (after_calls others fuel cs w))
    = __bool__ (self w) || existsb is_cancel cs.
Proof.
  intros item others fuel cs w Hothers. unfold __bool__.
  assert (Hkeep : forall c w0, is_cancel c = false ->
            canceled (self (after_call others fuel c w0))
            = canceled (self w0)).
  { intros c w0 Hc.
    apply (after_call_keeps others
             (fun q => canceled q = canceled (self w0))).
    - intros q l Hq. exact Hq.
    - intros k q Hq. now rewrite Hothers.
    - intros ->. discriminate.
    - intros _ q Hq. now rewrite enter_canceled.
    - intros _ q Hq. now rewrite exit_canceled.
    - reflexivity. }
  revert w. induction cs as [|c cs IH]; intros w.
  - simpl. now rewrite orb_false_r.
  - cbn [after_calls existsb]. rewrite IH.
    destruct (is_cancel c) eqn:Hc.
    + destruct c; try discriminate. simpl. now rewrite orb_true_r.
    + now rewrite Hkeep.
Qed.

Lemma bool_is_set_by_cancel_only_witness :
  __bool__ (self (after_calls idle 3
                    [call_put 1%nat true None; call_cancel; call_enter;
                     call_get true None; call_exit]
                    (world (__init__ 0) 0)))
  = __bool__ (self (world (@__init__ nat 0) 0))
    || existsb is_cancel
         [call_put 1%nat true None; call_cancel; call_enter;
          call_get true None; call_exit].
Proof.
  apply (bool_is_set_by_cancel_only nat idle 3
           [call_put 1%nat true None; call_cancel; call_enter;
            call_get true None; call_exit]
           (world (__init__ 0) 0)).
  reflexivity.
Defined.

(** X17.  No call sets the status back to [Unstarted]: once a queue has
    been entered, closed or canceled, it is not [Unstarted] after any
    sequence of calls, as long as the other threads do not reset it
    either; so a [put] warns about an unstarted queue only before the
    first writer scope or cancel. *)
Theorem status_never_back_to_Unstarted :
  forall (item : Type) (others : nat -> Iterqueue item -> Iterqueue item)
         (fuel : nat) (cs : list (call item)) (w : World item),
    (forall k q, status q <> Status.Unstarted ->
                 status (others k q) <> Status.Unstarted) ->
    status (self w) <> Status.Unstarted ->
    status (self (after_calls others fuel cs w)) <> Status.Unstarted.
Proof.
  intros item others fuel cs w Hothers Hw.
  apply (after_calls_keeps others (fun q => status q <> Status.Unstarted));
    try assumption.
  - intros q l Hq. exact Hq.
  - intros q _. discriminate.
  - intros q _. now rewrite enter_status.
  - intros q Hq. rewrite exit_status. now destruct (_ <? _).
Qed.

Lemma status_never_back_to_Unstarted_witness :
  status (self (after_calls idle 3
                  [call_exit; call_get_nowait; call_put_nowait 2%nat;
                   call_next; call_cancel]
                  (world (__enter__ (@__init__ nat 0)) 0)))
  <> Status.Unstarted.
Proof.
  apply (status_never_back_to_Unstarted nat idle 3
           [call_exit; call_get_nowait; call_put_nowait 2%nat;
            call_next; call_cancel]
           (world (__enter__ (__init__ 0)) 0)).
  - intros k q Hq. exact Hq.
  - discriminate.
Defined.

(** X18.  Only [cancel()] makes a queue [Canceled]: after any sequence
    of calls none of which is [cancel()], on a queue whose status was
    not [Canceled] and with the other threads not canceling, the status
    is not [Canceled], so no [get] or [put] of the sequence has raised
    [Canceled] for it. *)
Theorem only_cancel_cancels :
  forall (item : Type) (others : nat -> Iterqueue item -> Iterqueue item)
         (fuel : nat) (cs : list (call item)) (w : World item),
    (forall k q, status q <> Status.Canceled ->
                 status (others k q) <> Status.Canceled) ->
    existsb is_cancel cs = false ->
    status (self w) <> Status.Canceled ->
    status (self (after_calls others fuel cs w)) <> Status.Canceled.
Proof.
  intros item others fuel cs w Hothers. revert w.
  induction cs as [|c cs IH]; intros w Hcs Hw; [exact Hw|].
  cbn [after_calls existsb] in *. apply orb_false_iff in Hcs as [Hc Hcs].
  apply IH; [exact Hcs|].
  apply (after_call_keeps others (fun q => status q <> Status.Canceled)).
  - intros q l Hq. exact Hq.
  - exact Hothers.
  - intros ->. discriminate.
  - intros _ q _. now rewrite enter_status.
  - intros _ q Hq. rewrite exit_status. now destruct (_ <? _).
  - exact Hw.
Qed.

Lemma only_cancel_cancels_witness :
  status (self (after_calls idle 3
                  [call_enter; call_put 1%nat true None; call_exit;
                   call_next; call_next]
                  (world (@__init__ nat 0) 0)))
  <> Status.Canceled.
Proof.
  apply (only_cancel_cancels nat idle 3
           [call_enter; call_put 1%nat true None; call_exit;
            call_next; call_next]
           (world (__init__ 0) 0)).
  - intros k q Hq. exact Hq.
  - reflexivity.
  - discriminate.
Defined.

(** X19.  The writer count moves only with the writer scopes: after any
    sequence of calls, with the other threads opening and leaving no
    scope, it is the count before, plus the number of [__enter__]
    calls, minus the number of [__exit__] calls.  [put], [get] and
    [cancel] do not touch it; nothing keeps it from going below 0 when
    there are more exits than entries. *)
Theorem writers_counts_scopes :
  forall (item : Type) (others : nat -> Iterqueue item -> Iterqueue item)
         (fuel : nat) (cs : list (call item)) (w : World item),
    (forall k q, writers (others k q) = writers q) ->
    writers (self (after_calls others fuel cs w))
    = writers (self w)
      + Z.of_nat (length (filter is_enter cs))
      - Z.of_nat (length (filter is_exit cs)).
Proof.
  intros item others fuel cs w Hothers. revert w.
  induction cs as [|c cs IH]; intros w; [simpl; lia|].
  cbn [after_calls filter]. rewrite IH.
  assert (Hkeep : is_enter c = false -> is_exit c = false ->
            writers (self (after_call others fuel c w)) = writers (self w)).
  { intros He Hx.
    apply (after_call_keeps others (fun q => writers q = writers (self w))).
    - intros q l Hq. exact Hq.
    - intros k q Hq. now rewrite Hothers.
    - intros _ q Hq. exact Hq.
    - intros ->. discriminate.
    - intros ->. discriminate.
    - reflexivity. }
  destruct c; cbn [is_enter is_exit length];
    try (rewrite Hkeep by reflexivity; lia).
  - simpl. rewrite enter_writers. lia.
  - simpl. rewrite exit_writers. lia.
Qed.

Lemma writers_counts_scopes_witness :
  writers (self (after_calls idle 3
                   [call_enter; call_enter; call_put 1%nat true None;
                    call_cancel; call_exit; call_get_nowait]
                   (world (@__init__ nat 0) 0)))
  = writers (self (world (@__init__ nat 0) 0))
    + Z.of_nat (length (filter is_enter
                          [call_enter; call_enter; call_put 1%nat true None;
                           call_cancel; call_exit; call_get_nowait]))
    - Z.of_nat (length (filter is_exit
                          [call_enter; call_enter; call_put 1%nat true None;
                           call_cancel; call_exit; call_get_nowait])).
Proof.
  apply (writers_counts_scopes nat idle 3
           [call_enter; call_enter; call_put 1%nat true None;
            call_cancel; call_exit; call_get_nowait]
           (world (__init__ 0) 0)).
  reflexivity.
Defined.

(** X20.  While the count says a writer scope is open, the status is
    [Started] or [Canceled], never [Unstarted] or [Stopped]: this holds
    of a new queue and after every sequence of calls, balanced or not,
    as long as the other threads keep it too. *)
Theorem open_scope_means_Started_or_Canceled :
  forall (item : Type) (others : nat -> Iterqueue item -> Iterqueue item)
         (fuel : nat) (cs : list (call item)) (maxsize now : Z),
    (forall k q, scope_status_ok q -> scope_status_ok (others k q)) ->
    1 <= writers (self (after_calls others fuel cs
                          (world (__init__ maxsize) now))) ->
    status (self (after_calls others fuel cs (world (__init__ maxsize) now)))
    = Status.Started
    \/ status (self (after_calls others fuel cs
                       (world (__init__ maxsize) now)))
       = Status.Canceled.
Proof.
  intros item others fuel cs maxsize now Hothers.
  change (scope_status_ok
            (self (after_calls others fuel cs
                     (world (__init__ maxsize) now)))).
  apply (after_calls_keeps others scope_status_ok).
  - intros q l Hq. exact Hq.
  - exact Hothers.
  - intros q _ _. now right.
  - intros q _ _. left. apply enter_status.
  - intros q Hq Hopen. rewrite exit_writers in Hopen.
    rewrite exit_status.
    destruct (Z.ltb_spec (writers q - 1) 1); [lia|].
    apply Hq. lia.
  - intros Hopen. simpl in Hopen. lia.
Qed.

Lemma open_scope_means_Started_or_Canceled_witness :
  status (self (after_calls idle 3
                  [call_enter; call_enter; call_exit;
                   call_put 1%nat true None]
                  (world (@__init__ nat 0) 0))) = Status.Started
  \/ status (self (after_calls idle 3
                     [call_enter; call_enter; call_exit;
                      call_put 1%nat true None]
                     (world (@__init__ nat 0) 0))) = Status.Canceled.
Proof.
  apply (open_scope_means_Started_or_Canceled nat idle 3
           [call_enter; call_enter; call_exit; call_put 1%nat true None]
           0 0).
  - intros k q Hq. exact Hq.
  - simpl. lia.
Defined.

(** X21.  The queue is resumable.  Starting with no scope open and
    nothing buffered, any number of rounds of a writer scope that puts
    a batch, followed by a loop of the reader over the queue, hands the
    reader each batch whole and in order, round after round: a queue
    that was closed and exhausted is reopened by the next scope.  Each
    batch has to fit the bound, if there is one. *)
Theorem closed_queue_can_be_refilled :
  forall (item : Type) (others : nat -> Iterqueue item -> Iterqueue item)
         (rounds fuel : nat) (batches : list (list item)) (w : World item),
    writers (self w) = 0 ->
    queue (self w) = [] ->
    Forall (fun xs => (length xs < rounds)%nat
                      /\ (maxsize (self w) <= 0
                          \/ Z.of_nat (length xs) <= maxsize (self w)))
           batches ->
    exists w',
      fill_and_drain others rounds (S fuel) batches w = Some (batches, w')
      /\ queue (self w') = []
      /\ writers (self w') = 0
      /\ maxsize (self w') = maxsize (self w)
      /\ clock w' = clock w.
Proof.
  intros item others rounds fuel batches.
  induction batches as [|xs batches IH]; intros w Hwr Hq Hfit.
  - exists w. now repeat split.
  - inversion Hfit as [|? ? [Hlen Hroom] Hrest]; subst.
    cbn [fill_and_drain].
    rewrite writer_scope_writes; [|exact Hwr|].
    + assert (Hloop : list_of_queue others rounds (S fuel) (written xs w)
                      = Ended xs (emptied (written xs w))).
      { unfold list_of_queue.
        replace rounds with (S (length xs) + (rounds - S (length xs)))%nat
          by lia.
        rewrite (for_each_queue_stopped others fuel _ xs);
          [reflexivity|reflexivity|simpl; now rewrite Hq]. }
      rewrite Hloop.
      destruct (IH (emptied (written xs w)))
        as (w' & Hrun & Hq' & Hwr' & Hmax & Hclock);
        [reflexivity|reflexivity|exact Hrest|].
      exists w'. rewrite Hrun. now repeat split.
    + unfold room. rewrite Hq. simpl. tauto.
Qed.

Lemma closed_queue_can_be_refilled_witness :
  exists w',
    fill_and_drain idle 4 (S 0) [[1; 2; 3]; []; [4; 5]]%nat
                   (world (__init__ 3) 0)
    = Some ([[1; 2; 3]; []; [4; 5]]%nat, w')
    /\ queue (self w') = []
    /\ writers (self w') = 0
    /\ maxsize (self w') = maxsize (self (world (@__init__ nat 3) 0))
    /\ clock w' = clock (world (@__init__ nat 3) 0).
Proof.
  apply (closed_queue_can_be_refilled nat idle 4 0
           [[1; 2; 3]; []; [4; 5]]%nat (world (__init__ 3) 0)).
  - reflexivity.
  - reflexivity.
  - repeat constructor; simpl; lia.
Defined.
